(** * SARIF report assembly of the scanner's output package

    A shallow embedding of [output/sarif_format.go]: the conversion of a list
    of findings into a SARIF document, with the deduplicating rule and taxon
    registries, the location parser and the severity mapping.

    Go strings are byte strings and are modelled by [string] (a list of 8-bit
    [ascii]); Go's [int] is the 64-bit signed integer, modelled by [Z] with
    the wrap-around written out where the code computes with it; Go maps are
    [gmap]s; slices that are only appended to are lists, and the findings of
    a report are non-nil pointers, modelled by their values.

    The weakness catalog [cwe.Get], the names of the scores and the build
    information of the running binary are parameters of the converter. The
    functions of Go's [strings], [strconv], [crypto/md5] and of the [uuid]
    package that the converter calls are modelled after their
    documentation. *)

From Stdlib Require Import ZArith Ascii String.
From stdpp Require Import gmap strings list.

Local Open Scope string_scope.
Local Open Scope list_scope.
Local Open Scope Z_scope.

(** ** Results of fallible Go functions

    A Go function returning [(T, error)] either yields a value with a nil
    error, or a nil value with an error, or panics. *)

Inductive ErrKind := ErrSyntax | ErrRange.

(** [strconv.NumError]: the failing function, its input and the cause. *)
Record NumError := { Func : string; Num : string; Err : ErrKind }.

Inductive ret (A : Type) : Type :=
  | Ok (a : A)
  | Fail (e : NumError)
  | Panic.
Arguments Ok {A} a.
Arguments Fail {A} e.
Arguments Panic {A}.

(** The two components of the Go result pair. *)
Definition ret_value {A} (r : ret A) : option A :=
  match r with Ok a => Some a | _ => None end.
Definition ret_error {A} (r : ret A) : option NumError :=
  match r with Fail e => Some e | _ => None end.

Definition ret_bind {A B} (r : ret A) (k : A -> ret B) : ret B :=
  match r with
  | Ok a => k a
  | Fail e => Fail e
  | Panic => Panic
  end.
Notation "'try' x ':=' r 'in' k" := (ret_bind r (fun x => k))
  (at level 10, x name, r at level 100, k at level 200).

(** ** Machine integers *)

Definition int_min : Z := - 2 ^ 63.
Definition int_max : Z := 2 ^ 63 - 1.

(** Reduction of a mathematical integer to Go's 64-bit [int]. *)
Definition int_wrap (z : Z) : Z := (z + 2 ^ 63) mod 2 ^ 64 - 2 ^ 63.

(** ** The parts of Go's [strings] package the code calls *)

Module strings.

(** [strings.HasPrefix(s, prefix)]. *)
Definition HasPrefix (s prefix : string) : bool := String.prefix prefix s.

(** [s[n:]] for [n <= len(s)]; the empty string beyond. *)
Fixpoint drop (n : nat) (s : string) : string :=
  match n, s with
  | O, _ => s
  | S _, EmptyString => EmptyString
  | S n', String _ r => drop n' r
  end.

(** [strings.Replace(s, old, new, 1)]: the first occurrence of [old] in [s],
    scanning from the left, is replaced by [new]; [s] is returned unchanged
    when [old] does not occur. *)
Fixpoint Replace1 (s old new : string) : string :=
  if String.prefix old s then new +:+ drop (String.length old) s
  else match s with
       | EmptyString => EmptyString
       | String c r => String c (Replace1 r old new)
       end.

(** [strings.TrimPrefix(s, prefix)]: [s] without the leading [prefix], and
    [s] itself when it does not start with [prefix]. *)
Definition TrimPrefix (s prefix : string) : string :=
  if HasPrefix s prefix then drop (String.length prefix) s else s.

(** [strings.Split(s, sep)] for a separator of one byte: the pieces of [s]
    between the occurrences of [sep]; always at least one piece. *)
Fixpoint Split (s : string) (sep : ascii) : list string :=
  match s with
  | EmptyString => [EmptyString]
  | String c r =>
      if Ascii.eqb c sep then EmptyString :: Split r sep
      else match Split r sep with
           | h :: t => String c h :: t
           | [] => [String c EmptyString]
           end
  end.

(** [strings.Join(pieces, sep)] with a one-byte separator, the inverse of
    [Split]; used in statements only. *)
Fixpoint Join (pieces : list string) (sep : ascii) : string :=
  match pieces with
  | [] => EmptyString
  | [p] => p
  | p :: rest => p +:+ String sep (Join rest sep)
  end.

(** The byte [c] occurs in [s]. *)
Fixpoint contains_byte (c : ascii) (s : string) : bool :=
  match s with
  | EmptyString => false
  | String d r => Ascii.eqb d c || contains_byte c r
  end.

End strings.

(** ** [strconv.Atoi]

    Go documents [Atoi(s)] as [ParseInt(s, 10, 0)] converted to [int], with
    the error's [Func] set to ["Atoi"].  [ParseInt] takes an optional sign and
    hands the rest to [ParseUint], which reads decimal digits left to right
    and reports a range error as soon as the accumulated value leaves 64
    bits, and a syntax error at the first byte that is not a digit.  In base
    10 the underscore is not a digit separator. *)

Module strconv.

Definition byte_val (c : ascii) : Z := Z.of_N (N_of_ascii c).

Definition is_digit (c : ascii) : bool :=
  (48 <=? byte_val c) && (byte_val c <=? 57).

Definition maxUint64 : Z := 2 ^ 64 - 1.

(** The smallest number whose tenfold exceeds [maxUint64]. *)
Definition cutoff : Z := maxUint64 / 10 + 1.

(** The digit loop of [ParseUint] in base 10, [n] the value read so far. *)
Fixpoint ParseUint_loop (n : Z) (s : string) : ErrKind + Z :=
  match s with
  | EmptyString => inr n
  | String c r =>
      if is_digit c then
        let d := byte_val c - 48 in
        if cutoff <=? n then inl ErrRange
        else
          let n10 := n * 10 in
          let n1 := (n10 + d) mod 2 ^ 64 in
          if (n1 <? n10) || (maxUint64 <? n1) then inl ErrRange
          else ParseUint_loop n1 r
      else inl ErrSyntax
  end.

Definition ParseUint (s : string) : ErrKind + Z :=
  match s with
  | EmptyString => inl ErrSyntax
  | _ => ParseUint_loop 0 s
  end.

(** [ParseInt(s, 10, 0)]: result or the kind of error. A range error of
    [ParseUint] comes with the value [maxUint64], which the bound check
    below turns into a range error of [ParseInt]. *)
Definition ParseInt (s : string) : ErrKind + Z :=
  match s with
  | EmptyString => inl ErrSyntax
  | String c r =>
      let neg := Ascii.eqb c "-"%char in
      let body := if Ascii.eqb c "+"%char || neg then r else s in
      match ParseUint body with
      | inl ErrSyntax => inl ErrSyntax
      | other =>
          let un := match other with inr u => u | inl _ => maxUint64 end in
          if negb neg && (2 ^ 63 <=? un) then inl ErrRange
          else if neg && (2 ^ 63 <? un) then inl ErrRange
          else inr (if neg then int_wrap (- int_wrap un) else int_wrap un)
      end
  end.

Definition Atoi (s : string) : ret Z :=
  match ParseInt s with
  | inr n => Ok n
  | inl k => Fail {| Func := "Atoi"; Num := s; Err := k |}
  end.

End strconv.

(** ** Decimal integer texts, as a specification of [Atoi] *)

(** The number denoted by a string of decimal digits following [acc]. *)
Fixpoint digits_value (acc : Z) (s : string) : Z :=
  match s with
  | EmptyString => acc
  | String c r => digits_value (acc * 10 + (strconv.byte_val c - 48)) r
  end.

Fixpoint all_digits (s : string) : bool :=
  match s with
  | EmptyString => true
  | String c r => strconv.is_digit c && all_digits r
  end.

(** [s] is the decimal text of the machine integer [z]: an optional sign, at
    least one digit, and a value that fits Go's [int]. *)
Definition int_text (s : string) (z : Z) : Prop :=
  exists (sign body : string),
    s = sign +:+ body /\
    (sign = "" \/ sign = "+" \/ sign = "-") /\
    body <> "" /\ all_digits body = true /\
    z = (if String.eqb sign "-" then - digits_value 0 body
         else digits_value 0 body) /\
    int_min <= z <= int_max.

Definition valid_int (s : string) : Prop := exists z, int_text s z.


(** ** Content-derived identifiers: [uuid.NewMD5]

    The version-3 UUID of RFC 4122: the MD5 digest (RFC 1321) of the
    namespace followed by the name, with the version and variant bits set.
    Bytes are integers below 256, words are integers below [2 ^ 32]. *)

Module md5.

Definition w32 (z : Z) : Z := z mod 2 ^ 32.

Definition rotl (x : Z) (c : Z) : Z :=
  w32 (Z.lor (Z.shiftl x c) (Z.shiftr x (32 - c))).

Definition not32 (x : Z) : Z := Z.lxor x (2 ^ 32 - 1).

Definition shifts : list Z :=
  [ 7; 12; 17; 22; 7; 12; 17; 22; 7; 12; 17; 22; 7; 12; 17; 22;
    5; 9; 14; 20; 5; 9; 14; 20; 5; 9; 14; 20; 5; 9; 14; 20;
    4; 11; 16; 23; 4; 11; 16; 23; 4; 11; 16; 23; 4; 11; 16; 23;
    6; 10; 15; 21; 6; 10; 15; 21; 6; 10; 15; 21; 6; 10; 15; 21 ].

(** [floor (2 ^ 32 * abs (sin (i + 1)))] for [i] from 0 to 63. *)
Definition sines : list Z :=
  [ 0xd76aa478; 0xe8c7b756; 0x242070db; 0xc1bdceee;
    0xf57c0faf; 0x4787c62a; 0xa8304613; 0xfd469501;
    0x698098d8; 0x8b44f7af; 0xffff5bb1; 0x895cd7be;
    0x6b901122; 0xfd987193; 0xa679438e; 0x49b40821;
    0xf61e2562; 0xc040b340; 0x265e5a51; 0xe9b6c7aa;
    0xd62f105d; 0x02441453; 0xd8a1e681; 0xe7d3fbc8;
    0x21e1cde6; 0xc33707d6; 0xf4d50d87; 0x455a14ed;
    0xa9e3e905; 0xfcefa3f8; 0x676f02d9; 0x8d2a4c8a;
    0xfffa3942; 0x8771f681; 0x6d9d6122; 0xfde5380c;
    0xa4beea44; 0x4bdecfa9; 0xf6bb4b60; 0xbebfbc70;
    0x289b7ec6; 0xeaa127fa; 0xd4ef3085; 0x04881d05;
    0xd9d4d039; 0xe6db99e5; 0x1fa27cf8; 0xc4ac5665;
    0xf4292244; 0x432aff97; 0xab9423a7; 0xfc93a039;
    0x655b59c3; 0x8f0ccc92; 0xffeff47d; 0x85845dd1;
    0x6fa87e4f; 0xfe2ce6e0; 0xa3014314; 0x4e0811a1;
    0xf7537e82; 0xbd3af235; 0x2ad7d2bb; 0xeb86d391 ].

(** The four running words of the digest. *)
Record digest := { dA : Z; dB : Z; dC : Z; dD : Z }.

Definition init : digest :=
  {| dA := 0x67452301; dB := 0xefcdab89; dC := 0x98badcfe; dD := 0x10325476 |}.

(** Little-endian word of four bytes, and back. *)
Definition word_of_bytes (bs : list Z) : Z :=
  foldr (fun b acc => b + 256 * acc) 0 bs.

Definition bytes_of_word (n : nat) (w : Z) : list Z :=
  map (fun k => Z.shiftr w (8 * Z.of_nat k) mod 256) (seq 0 n).

Fixpoint words (n : nat) (bs : list Z) : list Z :=
  match n with
  | O => []
  | S n' => word_of_bytes (take 4 bs) :: words n' (drop 4 bs)
  end.

(** One of the 64 operations on a block [m] of 16 words. *)
Definition step (m : list Z) (st : digest) (i : nat) : digest :=
  let '(Build_digest a b c d) := st in
  let iz := Z.of_nat i in
  let '(f, g) :=
    if iz <? 16 then (Z.lor (Z.land b c) (Z.land (not32 b) d), iz)
    else if iz <? 32 then
      (Z.lor (Z.land d b) (Z.land (not32 d) c), (5 * iz + 1) mod 16)
    else if iz <? 48 then (Z.lxor b (Z.lxor c d), (3 * iz + 5) mod 16)
    else (Z.lxor c (Z.lor b (not32 d)), (7 * iz) mod 16) in
  let f' := w32 (f + a + nth i sines 0 + nth (Z.to_nat g) m 0) in
  {| dA := d; dB := w32 (b + rotl f' (nth i shifts 0)); dC := b; dD := c |}.

Definition block (st : digest) (bs : list Z) : digest :=
  let r := fold_left (step (words 16 bs)) (seq 0 64) st in
  {| dA := w32 (dA st + dA r); dB := w32 (dB st + dB r);
     dC := w32 (dC st + dC r); dD := w32 (dD st + dD r) |}.

(** The message followed by the byte 0x80, zero bytes up to 56 modulo 64,
    and the length in bits as eight little-endian bytes. *)
Definition pad (msg : list Z) : list Z :=
  let len := Z.of_nat (length msg) in
  let zeros := Z.to_nat ((55 - len) mod 64) in
  msg ++ [0x80] ++ replicate zeros 0
      ++ bytes_of_word 8 ((8 * len) mod 2 ^ 64).

Fixpoint blocks (n : nat) (st : digest) (bs : list Z) : digest :=
  match n with
  | O => st
  | S n' => blocks n' (block st (take 64 bs)) (drop 64 bs)
  end.

(** [md5.Sum]: the sixteen bytes of the digest. *)
Definition Sum (msg : list Z) : list Z :=
  let p := pad msg in
  let r := blocks (length p / 64)%nat init p in
  bytes_of_word 4 (dA r) ++ bytes_of_word 4 (dB r)
    ++ bytes_of_word 4 (dC r) ++ bytes_of_word 4 (dD r).

End md5.

Module uuid.

(** A UUID is sixteen bytes; [uuid.Nil] is all zero. *)
Definition UUID := list Z.
Definition Nil : UUID := replicate 16%nat 0.

Definition bytes (s : string) : list Z :=
  map strconv.byte_val (list_ascii_of_string s).

(** Byte [k] of [u] replaced by [f] of it. *)
Definition set_byte (k : nat) (f : Z -> Z) (u : UUID) : UUID :=
  match u !! k with
  | Some b => <[k := f b]> u
  | None => u
  end.

(** [uuid.NewMD5(space, data)]: digest of [space] followed by [data], then
    version 3 in the high half of byte 6 and the RFC 4122 variant in the
    two top bits of byte 8. *)
Definition NewMD5 (space : UUID) (data : list Z) : UUID :=
  let h := md5.Sum (space ++ data) in
  set_byte 8 (fun b => Z.lor (Z.land b 0x3f) 0x80)
    (set_byte 6 (fun b => Z.lor (Z.land b 0x0f) 0x30) h).

Definition hex_digit (z : Z) : ascii :=
  ascii_of_N (Z.to_N (if z <? 10 then 48 + z else 87 + z)).

Fixpoint hex (bs : list Z) : string :=
  match bs with
  | [] => EmptyString
  | b :: r => String (hex_digit (b / 16)) (String (hex_digit (b mod 16)) (hex r))
  end.

(** [UUID.String]: lower-case hexadecimal in groups of 8-4-4-4-12. *)
Definition String (u : UUID) : string :=
  hex (take 4 u) +:+ "-" +:+ hex (take 2 (drop 4 u)) +:+ "-"
    +:+ hex (take 2 (drop 6 u)) +:+ "-" +:+ hex (take 2 (drop 8 u)) +:+ "-"
    +:+ hex (drop 10 u).

End uuid.


(** ** The packages the converter imports

    Their declarations are not part of [output/sarif_format.go]; the records
    below carry the fields the converter reads or writes.  A field that is a
    pointer set by some constructions and left nil by others is an [option];
    a string field left unset is the empty string. *)

Module gosec.

(** [gosec.Score], an integer enumeration of severities and confidences. *)
Definition Score : Type := Z.

Record CweInfo := { ID : string; URL : string }.

Record Issue := {
  Severity : Score;
  Confidence : Score;
  Cwe : CweInfo;
  RuleID : string;
  What : string;
  File : string;
  Line : string;
  Col : string
}.

End gosec.

Module cwe.

Record Weakness := { ID : string; Name : string; Description : string }.

(** The zero value, which a Go map lookup yields for an absent key. *)
Definition zero : Weakness := {| ID := ""; Name := ""; Description := "" |}.

End cwe.

Module sarif.

Record MultiformatMessageString := { mms_Text : string }.
Record Message := { msg_Text : string }.
Record PropertyBag := { Tags : list string }.
Record ReportingConfiguration := { rc_Level : string }.

Record ToolComponentReference := {
  tcr_Name : string;
  tcr_Index : Z;
  tcr_Guid : string
}.

Record ReportingDescriptorReference := {
  rdr_Id : string;
  rdr_Guid : string;
  rdr_ToolComponent : ToolComponentReference
}.

Record ReportingDescriptorRelationship := {
  Target : ReportingDescriptorReference;
  Kinds : list string
}.

Record ReportingDescriptor := {
  rd_Id : string;
  rd_Name : string;
  rd_Guid : string;
  rd_HelpUri : string;
  rd_ShortDescription : option MultiformatMessageString;
  rd_FullDescription : option MultiformatMessageString;
  rd_Help : option MultiformatMessageString;
  rd_Properties : option PropertyBag;
  rd_DefaultConfiguration : option ReportingConfiguration;
  rd_Relationships : list ReportingDescriptorRelationship
}.

Record ToolComponent := {
  tc_Name : string;
  tc_Version : string;
  tc_ReleaseDateUtc : string;
  tc_InformationUri : string;
  tc_DownloadUri : string;
  tc_Organization : string;
  tc_ShortDescription : option MultiformatMessageString;
  tc_Guid : string;
  tc_IsComprehensive : bool;
  tc_MinimumRequiredLocalizedDataSemanticVersion : string;
  tc_Taxa : list ReportingDescriptor;
  tc_SupportedTaxonomies : list ToolComponentReference;
  tc_Rules : list ReportingDescriptor
}.

Record Tool := { Driver : ToolComponent }.

Record ArtifactLocation := { Uri : string }.

Record Region := {
  StartLine : Z;
  EndLine : Z;
  StartColumn : Z;
  EndColumn : Z
}.

Record PhysicalLocation := {
  pl_ArtifactLocation : ArtifactLocation;
  pl_Region : Region
}.

Record Location := { loc_PhysicalLocation : PhysicalLocation }.

Record Result := {
  RuleId : string;
  RuleIndex : Z;
  res_Level : string;
  res_Message : Message;
  Locations : list Location
}.

Record Run := {
  Results : list Result;
  Taxonomies : list ToolComponent;
  run_Tool : Tool
}.

(** [StaticAnalysisResultsFormatSARIFVersion210JSONSchema]. *)
Record Report := {
  Version : string;
  Schema : string;
  Runs : list Run
}.

End sarif.

(** [reportInfo]: the converter reads its findings only. *)
Record reportInfo := { Issues : list gosec.Issue }.

(** ** The converter *)

Definition sarifLevel : Type := string.

Definition sarifNone : sarifLevel := "none".
Definition sarifNote : sarifLevel := "note".
Definition sarifWarning : sarifLevel := "warning".
Definition sarifError : sarifLevel := "error".
Definition cweAcronym : string := "CWE".

(** The line feed of the Go literal ["\n"]. *)
Definition LF : string := String (ascii_of_nat 10) EmptyString.

Definition getSarifLevel (s : string) : sarifLevel :=
  if String.eqb s "LOW" then sarifWarning
  else if String.eqb s "MEDIUM" then sarifError
  else if String.eqb s "HIGH" then sarifError
  else sarifNote.

Definition uuid3 (value : string) : string :=
  uuid.String (uuid.NewMD5 uuid.Nil (uuid.bytes value)).

Definition buildSarifReport (run : sarif.Run) : sarif.Report :=
  {| sarif.Version := "2.1.0";
     sarif.Schema := "https://raw.githubusercontent.com/oasis-tcs/sarif-spec/master/Schemata/sarif-schema-2.1.0.json";
     sarif.Runs := [run] |}.

Definition buildSarifReportingDescriptorRelationship (weakness : cwe.Weakness)
  : sarif.ReportingDescriptorRelationship :=
  {| sarif.Target :=
       {| sarif.rdr_Id := cwe.ID weakness;
          sarif.rdr_Guid := uuid3 (cwe.Name weakness);
          sarif.rdr_ToolComponent :=
            {| sarif.tcr_Name := cweAcronym; sarif.tcr_Index := 0;
               sarif.tcr_Guid := "" |} |};
     sarif.Kinds := ["superset"] |}.

Definition buildSarifTool (driver : sarif.ToolComponent) : sarif.Tool :=
  {| sarif.Driver := driver |}.

Definition buildSarifTaxonomies (taxa : list sarif.ReportingDescriptor)
  : list sarif.ToolComponent :=
  let version := "4.4" in
  [ {| sarif.tc_Name := cweAcronym;
       sarif.tc_Version := version;
       sarif.tc_ReleaseDateUtc := "2021-03-15";
       sarif.tc_InformationUri :=
         "https://cwe.mitre.org/data/published/cwe_v" +:+ version +:+ ".pdf/";
       sarif.tc_DownloadUri :=
         "https://cwe.mitre.org/data/xml/cwec_v" +:+ version +:+ ".xml.zip";
       sarif.tc_Organization := "MITRE";
       sarif.tc_ShortDescription :=
         Some {| sarif.mms_Text := "The MITRE Common Weakness Enumeration" |};
       sarif.tc_Guid := uuid3 cweAcronym;
       sarif.tc_IsComprehensive := true;
       sarif.tc_MinimumRequiredLocalizedDataSemanticVersion := version;
       sarif.tc_Taxa := taxa;
       sarif.tc_SupportedTaxonomies := [];
       sarif.tc_Rules := [] |} ].

Definition buildSarifTaxon (id name uri description : string)
  : sarif.ReportingDescriptor :=
  {| sarif.rd_Id := id;
     sarif.rd_Name := name;
     sarif.rd_Guid := uuid3 name;
     sarif.rd_HelpUri := uri;
     sarif.rd_ShortDescription := Some {| sarif.mms_Text := description |};
     sarif.rd_FullDescription := None;
     sarif.rd_Help := None;
     sarif.rd_Properties := None;
     sarif.rd_DefaultConfiguration := None;
     sarif.rd_Relationships := [] |}.

Definition parseSarifTaxon (weakness : cwe.Weakness) (url : string)
  : sarif.ReportingDescriptor :=
  buildSarifTaxon (cwe.ID weakness) (cwe.Name weakness) url
    (cwe.Description weakness).

Definition buildSarifRun (results : list sarif.Result)
    (taxonomies : list sarif.ToolComponent) (tool : sarif.Tool) : sarif.Run :=
  {| sarif.Results := results;
     sarif.Taxonomies := taxonomies;
     sarif.run_Tool := tool |}.

Definition buildSarifLocation (physicalLocation : sarif.PhysicalLocation)
  : sarif.Location :=
  {| sarif.loc_PhysicalLocation := physicalLocation |}.

Definition buildSarifPhysicalLocation
    (artifactLocation : sarif.ArtifactLocation) (region : sarif.Region)
  : sarif.PhysicalLocation :=
  {| sarif.pl_ArtifactLocation := artifactLocation;
     sarif.pl_Region := region |}.

Definition parseSarifArtifactLocation (filePath : string)
  : sarif.ArtifactLocation :=
  {| sarif.Uri := filePath |}.

Definition parseSarifRegion (startLine endLine col : Z) : sarif.Region :=
  {| sarif.StartLine := startLine;
     sarif.EndLine := endLine;
     sarif.StartColumn := col;
     sarif.EndColumn := col |}.

(** The loop over [rootPaths] in [parseSarifLocation]: [filePath] starts as
    the empty string and is assigned at every root that is a prefix of the
    file, with no exit from the loop. *)
Fixpoint relativize (file : string) (rootPaths : list string)
    (filePath : string) : string :=
  match rootPaths with
  | [] => filePath
  | rootPath :: rest =>
      relativize file rest
        (if strings.HasPrefix file rootPath
         then strings.Replace1 file (rootPath +:+ "/") ""
         else filePath)
  end.

Definition parseSarifLocation (issue : gosec.Issue) (rootPaths : list string)
  : ret sarif.Location :=
  let lines := strings.Split (gosec.Line issue) "-" in
  match lines !! 0%nat with
  | None => Panic
  | Some l0 =>
      try startLine := strconv.Atoi l0 in
      try endLine :=
        (match lines !! 1%nat with
         | Some l1 => strconv.Atoi l1
         | None => Ok startLine
         end) in
      try col := strconv.Atoi (gosec.Col issue) in
      let filePath := relativize (gosec.File issue) rootPaths "" in
      Ok (buildSarifLocation
            (buildSarifPhysicalLocation (parseSarifArtifactLocation filePath)
               (parseSarifRegion startLine endLine col)))
  end.

(** The local struct [rule] of [convertToSarifReport]. *)
Record rule := { index : Z; rule_descriptor : sarif.ReportingDescriptor }.

(** The variables of [convertToSarifReport] that its loop updates. *)
Record registry := {
  rules : list sarif.ReportingDescriptor;
  rulesIndices : gmap string rule;
  lastRuleIndex : Z;
  results : list sarif.Result;
  taxa : list sarif.ReportingDescriptor;
  weaknesses : gmap string cwe.Weakness
}.

Definition registry_init : registry :=
  {| rules := []; rulesIndices := ∅; lastRuleIndex := -1;
     results := []; taxa := []; weaknesses := ∅ |}.

Section Converter.

(** [cwe.Get], the catalog of weaknesses. *)
Variable cwe_Get : string -> cwe.Weakness.

(** The [String] method of [gosec.Score]. *)
Variable Score_String : gosec.Score -> string.

(** [debug.ReadBuildInfo]: the version of the main module when the binary
    carries build information, [None] when it does not. *)
Variable ReadBuildInfo : option string.

Definition parseSarifRule (issue : gosec.Issue) (weakness : cwe.Weakness)
  : sarif.ReportingDescriptor :=
  {| sarif.rd_Id := gosec.RuleID issue;
     sarif.rd_Name := gosec.What issue;
     sarif.rd_Guid := "";
     sarif.rd_HelpUri := "";
     sarif.rd_ShortDescription :=
       Some {| sarif.mms_Text := gosec.What issue |};
     sarif.rd_FullDescription :=
       Some {| sarif.mms_Text := gosec.What issue |};
     sarif.rd_Help :=
       Some {| sarif.mms_Text :=
                 gosec.What issue +:+ LF +:+ "Severity: "
                   +:+ Score_String (gosec.Severity issue) +:+ LF
                   +:+ "Confidence: "
                   +:+ Score_String (gosec.Confidence issue) +:+ LF |};
     sarif.rd_Properties :=
       Some {| sarif.Tags :=
                 [ "CWE-" +:+ gosec.ID (gosec.Cwe issue);
                   Score_String (gosec.Severity issue) ] |};
     sarif.rd_DefaultConfiguration :=
       Some {| sarif.rc_Level :=
                 getSarifLevel (Score_String (gosec.Severity issue)) |};
     sarif.rd_Relationships :=
       [ buildSarifReportingDescriptorRelationship weakness ] |}.

(** [Version[1:]] panics on the empty string. *)
Definition buildSarifDriver (rules : list sarif.ReportingDescriptor)
  : ret sarif.ToolComponent :=
  try gosecVersion :=
    (match ReadBuildInfo with
     | Some EmptyString => Panic
     | Some (String _ rest) => Ok rest
     | None => Ok "devel"
     end) in
  Ok {| sarif.tc_Name := "gosec";
        sarif.tc_Version := gosecVersion;
        sarif.tc_ReleaseDateUtc := "";
        sarif.tc_InformationUri := "https://github.com/securego/gosec/";
        sarif.tc_DownloadUri := "";
        sarif.tc_Organization := "";
        sarif.tc_ShortDescription := None;
        sarif.tc_Guid := "";
        sarif.tc_IsComprehensive := false;
        sarif.tc_MinimumRequiredLocalizedDataSemanticVersion := "";
        sarif.tc_Taxa := [];
        sarif.tc_SupportedTaxonomies :=
          [ {| sarif.tcr_Name := cweAcronym; sarif.tcr_Index := 1;
               sarif.tcr_Guid := uuid3 cweAcronym |} ];
        sarif.tc_Rules := rules |}.

(** One iteration of the loop over [data.Issues]. *)
Definition convert_issue (rootPaths : list string) (st : registry)
    (issue : gosec.Issue) : ret registry :=
  let id := gosec.ID (gosec.Cwe issue) in
  let '(weaknesses1, taxa1) :=
    match weaknesses st !! id with
    | Some _ => (weaknesses st, taxa st)
    | None =>
        let weakness := cwe_Get id in
        (<[id := weakness]> (weaknesses st),
         taxa st ++ [parseSarifTaxon weakness (gosec.URL (gosec.Cwe issue))])
    end in
  let '(r, rules1, rulesIndices1, lastRuleIndex1) :=
    match rulesIndices st !! gosec.RuleID issue with
    | Some r => (r, rules st, rulesIndices st, lastRuleIndex st)
    | None =>
        let last := int_wrap (lastRuleIndex st + 1) in
        let r := {| index := last;
                    rule_descriptor :=
                      parseSarifRule issue
                        (default cwe.zero (weaknesses1 !! id)) |} in
        (r, rules st ++ [rule_descriptor r],
         <[gosec.RuleID issue := r]> (rulesIndices st), last)
    end in
  try location := parseSarifLocation issue rootPaths in
  let result :=
    {| sarif.RuleId := sarif.rd_Id (rule_descriptor r);
       sarif.RuleIndex := index r;
       sarif.res_Level :=
         getSarifLevel (Score_String (gosec.Severity issue));
       sarif.res_Message := {| sarif.msg_Text := gosec.What issue |};
       sarif.Locations := [location] |} in
  Ok {| rules := rules1; rulesIndices := rulesIndices1;
        lastRuleIndex := lastRuleIndex1;
        results := results st ++ [result];
        taxa := taxa1; weaknesses := weaknesses1 |}.

Fixpoint convert_issues (rootPaths : list string) (st : registry)
    (issues : list gosec.Issue) : ret registry :=
  match issues with
  | [] => Ok st
  | issue :: rest =>
      try st' := convert_issue rootPaths st issue in
      convert_issues rootPaths st' rest
  end.

Definition convertToSarifReport (rootPaths : list string)
    (data : reportInfo) : ret sarif.Report :=
  try st := convert_issues rootPaths registry_init (Issues data) in
  try driver := buildSarifDriver (rules st) in
  let tool := buildSarifTool driver in
  let run :=
    buildSarifRun (results st) (buildSarifTaxonomies (taxa st)) tool in
  Ok (buildSarifReport run).

End Converter.

(** ** Notions used in the statements *)

(** The elements of [l] whose key is met for the first time, in the order of
    [l]; [seen] holds the keys met before [l]. *)
Fixpoint first_occurrences_from {A : Type} (key : A -> string)
    (seen : gset string) (l : list A) : list A :=
  match l with
  | [] => []
  | x :: rest =>
      if decide (key x ∈ seen) then first_occurrences_from key seen rest
      else x :: first_occurrences_from key ({[key x]} ∪ seen) rest
  end.

Definition first_occurrences {A : Type} (key : A -> string) (l : list A)
  : list A :=
  first_occurrences_from key ∅ l.

(** The first, respectively last, root of the list that is a prefix of the
    file. *)
Fixpoint first_matching_root (file : string) (rootPaths : list string)
  : option string :=
  match rootPaths with
  | [] => None
  | rootPath :: rest =>
      if strings.HasPrefix file rootPath then Some rootPath
      else first_matching_root file rest
  end.

Fixpoint last_matching_root (file : string) (rootPaths : list string)
  : option string :=
  match rootPaths with
  | [] => None
  | rootPath :: rest =>
      match last_matching_root file rest with
      | Some later => Some later
      | None =>
          if strings.HasPrefix file rootPath then Some rootPath else None
      end
  end.

(** The pieces of a finding's line text, and the texts that are read as
    numbers: the first piece, the second when there is one, and the column. *)
Definition line_segments (issue : gosec.Issue) : list string :=
  strings.Split (gosec.Line issue) "-".

Definition parsed_texts (issue : gosec.Issue) : list string :=
  take 2 (line_segments issue) ++ [gosec.Col issue].

Definition location_region (loc : sarif.Location) : sarif.Region :=
  sarif.pl_Region (sarif.loc_PhysicalLocation loc).

Definition location_uri (loc : sarif.Location) : string :=
  sarif.Uri (sarif.pl_ArtifactLocation (sarif.loc_PhysicalLocation loc)).

(** The rule list of a run's tool, and the cross-reference of a rule. *)
Definition run_rules (run : sarif.Run) : list sarif.ReportingDescriptor :=
  sarif.tc_Rules (sarif.Driver (sarif.run_Tool run)).

Definition cwe_id (issue : gosec.Issue) : string :=
  gosec.ID (gosec.Cwe issue).

(** The taxon and the rule descriptor that a finding gives rise to when it is
    the first to mention its weakness, respectively its rule. *)
Definition finding_taxon (cwe_Get : string -> cwe.Weakness)
    (issue : gosec.Issue) : sarif.ReportingDescriptor :=
  parseSarifTaxon (cwe_Get (cwe_id issue)) (gosec.URL (gosec.Cwe issue)).

Definition finding_rule (cwe_Get : string -> cwe.Weakness)
    (Score_String : gosec.Score -> string) (issue : gosec.Issue)
  : sarif.ReportingDescriptor :=
  parseSarifRule Score_String issue (cwe_Get (cwe_id issue)).

(** ** Invariants of the loop *)

(** Every weakness cached is the catalog's entry for its key. *)
Definition weaknesses_cached (cwe_Get : string -> cwe.Weakness)
    (st : registry) : Prop :=
  forall id w, weaknesses st !! id = Some w -> w = cwe_Get id.

(** The counter is the last position of the rule list, and every registered
    rule sits in the list at its index, under its own identifier. *)
Definition rules_indexed (st : registry) : Prop :=
  lastRuleIndex st = Z.of_nat (length (rules st)) - 1 /\
  forall id r,
    rulesIndices st !! id = Some r ->
    exists k : nat,
      index r = Z.of_nat k /\
      rules st !! k = Some (rule_descriptor r) /\
      sarif.rd_Id (rule_descriptor r) = id.

(** A result refers to the rule of its finding, by identifier and position. *)
Definition result_refers (rules : list sarif.ReportingDescriptor)
    (issue : gosec.Issue) (res : sarif.Result) : Prop :=
  sarif.RuleId res = gosec.RuleID issue /\
  exists (k : nat) (d : sarif.ReportingDescriptor),
    sarif.RuleIndex res = Z.of_nat k /\
    rules !! k = Some d /\
    sarif.rd_Id d = gosec.RuleID issue.

(** ** A small catalog and score table for examples *)

Definition example_Get (id : string) : cwe.Weakness :=
  if String.eqb id "78" then
    {| cwe.ID := "78"; cwe.Name := "OS Command Injection";
       cwe.Description := "Improper neutralization of special elements" |}
  else if String.eqb id "798" then
    {| cwe.ID := "798"; cwe.Name := "Use of Hard-coded Credentials";
       cwe.Description := "The software contains hard-coded credentials" |}
  else if String.eqb id "22" then
    {| cwe.ID := "22"; cwe.Name := "Path Traversal";
       cwe.Description := "Improper limitation of a pathname" |}
  else cwe.zero.

Definition example_Score_String (s : gosec.Score) : string :=
  if s =? 0 then "LOW"
  else if s =? 1 then "MEDIUM"
  else if s =? 2 then "HIGH"
  else "UNDEFINED".

Definition example_issue (rule weakness url file line col what : string)
  : gosec.Issue :=
  {| gosec.Severity := 1; gosec.Confidence := 2;
     gosec.Cwe := {| gosec.ID := weakness; gosec.URL := url |};
     gosec.RuleID := rule; gosec.What := what; gosec.File := file;
     gosec.Line := line; gosec.Col := col |}.

Definition example_issues : list gosec.Issue :=
  [ example_issue "G204" "78" "https://cwe.mitre.org/data/definitions/78.html"
      "/home/u/proj/pkg/file.go" "42" "3" "Subprocess launched";
    example_issue "G101" "798" "https://cwe.mitre.org/data/definitions/798.html"
      "/home/u/proj/main.go" "10-15" "1" "Hard-coded credentials";
    example_issue "G204" "22" "https://cwe.mitre.org/data/definitions/22.html"
      "/home/u/proj/pkg/other.go" "7" "9" "Subprocess launched again";
    example_issue "G304" "22" "https://example.org/second-url"
      "/home/u/proj/pkg/other.go" "8" "2" "File inclusion" ].

Definition example_roots : list string := ["/home/u/proj"].


Definition example_data : reportInfo := {| Issues := example_issues |}.

(** A second catalog and score table, which differ from the first ones only
    on a weakness and a score that the example findings do not mention. *)
Definition other_Get (id : string) : cwe.Weakness :=
  if String.eqb id "999" then
    {| cwe.ID := "999"; cwe.Name := "Unlisted"; cwe.Description := "" |}
  else example_Get id.

Definition other_Score_String (s : gosec.Score) : string :=
  if s =? 7 then "SEVEN" else example_Score_String s.

(** ** Further notions used in the statements *)

(** [old] occurs in [s]. *)
Definition occurs (old s : string) : Prop :=
  exists pre post : string, s = pre +:+ old +:+ post.

(** The error of the first finding, in order, whose location does not parse;
    the roots play no part in it. *)
Fixpoint first_location_error (issues : list gosec.Issue) : option NumError :=
  match issues with
  | [] => None
  | issue :: rest =>
      match parseSarifLocation issue [] with
      | Fail e => Some e
      | _ => first_location_error rest
      end
  end.

(** What a result says about its finding, apart from the rule. *)
Definition result_reports (Score_String : gosec.Score -> string)
    (rootPaths : list string) (issue : gosec.Issue) (res : sarif.Result)
  : Prop :=
  sarif.res_Level res = getSarifLevel (Score_String (gosec.Severity issue)) /\
  sarif.res_Message res = {| sarif.msg_Text := gosec.What issue |} /\
  exists loc,
    parseSarifLocation issue rootPaths = Ok loc /\
    sarif.Locations res = [loc].

(** Lower-case hexadecimal digits. *)
Definition is_hex_digit (c : ascii) : bool :=
  ((48 <=? strconv.byte_val c) && (strconv.byte_val c <=? 57))
  || ((97 <=? strconv.byte_val c) && (strconv.byte_val c <=? 102)).

Fixpoint all_hex (s : string) : bool :=
  match s with
  | EmptyString => true
  | String c r => is_hex_digit c && all_hex r
  end.

(** ** The path handling of the command, [cmd/gas/main.go]

    The operating system enters through [os.Getenv], [runtime.GOROOT],
    [user.Current] (the home directory, when it succeeds), [filepath.Join],
    [filepath.Abs] (no value when it fails) and [filepath.FromSlash], which
    are parameters. *)

Module main.

Section Paths.

Variable os_Getenv : string -> string.
Variable runtime_GOROOT : string.
Variable user_Current : option string.
Variable filepath_Join : string -> string -> string.
Variable filepath_Abs : string -> option string.
Variable filepath_FromSlash : string -> string.

Definition getenv (key userDefault : string) : string :=
  let val := os_Getenv key in
  if negb (String.eqb val "") then val else userDefault.

Definition gopath : string :=
  let defaultGoPath :=
    match user_Current with
    | Some homeDir => filepath_Join homeDir "go"
    | None => runtime_GOROOT
    end in
  let path := getenv "GOPATH" defaultGoPath in
  match filepath_Abs path with
  | None => path
  | Some abs => abs
  end.

(** The loop of [cleanPaths], [clean] the slice built so far. *)
Fixpoint cleanPaths_loop (projectRoot : string) (paths clean : list string)
  : list string :=
  match paths with
  | [] => clean
  | arg :: rest =>
      let abspath :=
        match filepath_Abs arg with
        | Some abs => abs
        | None => arg
        end in
      cleanPaths_loop projectRoot rest
        (if strings.HasPrefix abspath projectRoot
         then clean ++ [strings.TrimPrefix abspath projectRoot]
         else clean ++ [arg])
  end.

Definition cleanPaths (paths : list string) : list string :=
  let projectRoot := filepath_FromSlash (gopath +:+ "/src/") in
  cleanPaths_loop projectRoot paths [].

End Paths.

End main.

(** * Properties *)

(** ** Machine integers and [strconv] *)

Lemma int_wrap_small (z : Z) : int_min <= z <= int_max -> int_wrap z = z.
Proof.
  unfold int_wrap, int_min, int_max. intros Hz.
  rewrite Z.mod_small; lia.
Qed.

Lemma is_digit_range (c : ascii) :
  strconv.is_digit c = true <-> 48 <= strconv.byte_val c <= 57.
Proof. unfold strconv.is_digit. rewrite andb_true_iff, !Z.leb_le. tauto. Qed.

Lemma digits_value_mono (s : string) (acc : Z) :
  all_digits s = true -> 0 <= acc -> acc <= digits_value acc s.
Proof.
  revert acc. induction s as [|c r IH]; intros acc Hd Hacc; simpl in *.
  - lia.
  - apply andb_true_iff in Hd as [Hc Hr]. apply is_digit_range in Hc.
    etrans; [|apply IH; [done|lia]]. lia.
Qed.

Lemma ParseUint_loop_spec (s : string) (n v : Z) :
  0 <= n <= strconv.maxUint64 ->
  strconv.ParseUint_loop n s = inr v <->
  all_digits s = true /\ v = digits_value n s /\ v <= strconv.maxUint64.
Proof.
  revert n. induction s as [|c r IH]; intros n Hn; simpl.
  - split; [intros [= <-]; lia | intros (_ & -> & _); done].
  - destruct (strconv.is_digit c) eqn:Hc; simpl;
      [|split; [done | intros ([=] & _)]].
    apply is_digit_range in Hc.
    assert (Hcut : strconv.cutoff = 1844674407370955162) by reflexivity.
    assert (Hmax : strconv.maxUint64 = 18446744073709551615) by reflexivity.
    assert (Hpow : 2 ^ 64 = 18446744073709551616) by reflexivity.
    set (d := strconv.byte_val c - 48) in *.
    destruct (Z.leb_spec strconv.cutoff n) as [Hge|Hlt].
    { split; [done|]. intros (Hr & -> & Hv). exfalso.
      pose proof (digits_value_mono r (n * 10 + d) Hr ltac:(lia)). lia. }
    destruct (Z_lt_ge_dec (n * 10 + d) (2 ^ 64)) as [Hsmall|Hbig].
    + rewrite (Z.mod_small (n * 10 + d)) by lia.
      replace ((n * 10 + d <? n * 10) || (strconv.maxUint64 <? n * 10 + d))
        with false; [apply IH; lia|].
      symmetry. apply orb_false_iff. split; [apply Z.ltb_ge|apply Z.ltb_ge]; lia.
    + replace ((n * 10 + d) mod 2 ^ 64) with (n * 10 + d - 2 ^ 64).
      2:{ apply Z.mod_unique with (q := 1); lia. }
      replace (n * 10 + d - 2 ^ 64 <? n * 10) with true
        by (symmetry; apply Z.ltb_lt; lia).
      simpl. split; [done|]. intros (Hr & -> & Hv). exfalso.
      pose proof (digits_value_mono r (n * 10 + d) Hr ltac:(lia)). lia.
Qed.

Lemma ParseUint_spec (s : string) (v : Z) :
  strconv.ParseUint s = inr v <->
  s <> "" /\ all_digits s = true /\ v = digits_value 0 s
  /\ v <= strconv.maxUint64.
Proof.
  unfold strconv.ParseUint. destruct s as [|c r].
  - split; [done | intros (? & _); done].
  - rewrite ParseUint_loop_spec by (unfold strconv.maxUint64; lia).
    split; [intros ?; split; [done|tauto] | tauto].
Qed.

Lemma digits_value_nonneg (s : string) :
  all_digits s = true -> 0 <= digits_value 0 s.
Proof. intros Hd. by apply digits_value_mono. Qed.

Lemma digit_not_sign (c : ascii) :
  strconv.is_digit c = true ->
  Ascii.eqb c "+"%char = false /\ Ascii.eqb c "-"%char = false.
Proof.
  intros Hc. split; apply Ascii.eqb_neq; intros ->; discriminate Hc.
Qed.

(** [ParseInt] yields [z] exactly on the decimal texts of [z]. *)
Lemma ParseInt_spec (s : string) (z : Z) :
  strconv.ParseInt s = inr z <-> int_text s z.
Proof.
  assert (Hmax : strconv.maxUint64 = 18446744073709551615) by reflexivity.
  assert (Hpow : 2 ^ 63 = 9223372036854775808) by reflexivity.
  unfold int_text, int_min, int_max. split.
  - destruct s as [|c r]; [done|]. unfold strconv.ParseInt.
    set (neg := Ascii.eqb c "-"%char).
    set (body := if Ascii.eqb c "+"%char || neg then r else String c r).
    destruct (strconv.ParseUint body) as [[]|u] eqn:Hu; [done| |].
    { rewrite Hmax. destruct neg; simpl; done. }
    apply ParseUint_spec in Hu as (Hne & Hd & -> & Hle).
    pose proof (digits_value_nonneg body Hd) as H0.
    destruct (Ascii.eqb_spec c "-"%char) as [->|Hm]; subst neg; simpl.
    + destruct (Z.ltb_spec (2 ^ 63) (digits_value 0 body)); [done|].
      intros [= <-]. exists "-", body. simpl in body. subst body.
      repeat split; auto; simpl.
      * destruct (Z.eq_dec (digits_value 0 r) (2 ^ 63)) as [->|].
        -- reflexivity.
        -- rewrite (int_wrap_small (digits_value 0 r))
             by (unfold int_min, int_max; lia).
           apply int_wrap_small. unfold int_min, int_max; lia.
      * destruct (Z.eq_dec (digits_value 0 r) (2 ^ 63)) as [->|];
          [vm_compute; done|].
        rewrite (int_wrap_small (digits_value 0 r))
          by (unfold int_min, int_max; lia).
        rewrite int_wrap_small by (unfold int_min, int_max; lia). lia.
      * destruct (Z.eq_dec (digits_value 0 r) (2 ^ 63)) as [->|];
          [vm_compute; done|].
        rewrite (int_wrap_small (digits_value 0 r))
          by (unfold int_min, int_max; lia).
        rewrite int_wrap_small by (unfold int_min, int_max; lia). lia.
    + destruct (Z.leb_spec (2 ^ 63) (digits_value 0 body)); [done|].
      intros [= <-].
      rewrite int_wrap_small by (unfold int_min, int_max; lia).
      destruct (Ascii.eqb_spec c "+"%char) as [->|Hp]; simpl in body;
        subst body.
      * exists "+", r. repeat split; auto; simpl; lia.
      * exists "", (String c r). repeat split; auto; simpl in *; lia.
  - intros (sign & body & -> & Hsign & Hne & Hd & -> & Hlo & Hhi).
    pose proof (digits_value_nonneg body Hd) as H0.
    assert (Hu : strconv.ParseUint body = inr (digits_value 0 body)).
    { apply ParseUint_spec. repeat split; auto.
      destruct (String.eqb sign "-"); lia. }
    destruct Hsign as [->|[->| ->]]; simpl in *.
    + destruct body as [|c r]; [done|].
      change ("" +:+ String c r) with (String c r).
      set (v := digits_value 0 (String c r)) in *. clearbody v.
      unfold strconv.ParseInt. cbv beta iota zeta.
      simpl in Hd. apply andb_true_iff in Hd as [Hc _].
      destruct (digit_not_sign c Hc) as [-> ->]. simpl orb. cbv iota.
      rewrite Hu. simpl negb. simpl andb.
      destruct (Z.leb_spec (2 ^ 63) v); [lia|].
      f_equal. apply int_wrap_small. unfold int_min, int_max. lia.
    + change ("+" +:+ body) with (String "+" body).
      unfold strconv.ParseInt. cbv beta iota zeta.
      change (Ascii.eqb "+" "-") with false.
      change (Ascii.eqb "+" "+") with true.
      cbv beta iota delta [orb negb andb].
      change ("" +:+ body) with body. rewrite Hu.
      destruct (Z.leb_spec (2 ^ 63) (digits_value 0 body)); [lia|].
      f_equal. apply int_wrap_small. unfold int_min, int_max. lia.
    + change ("-" +:+ body) with (String "-" body).
      unfold strconv.ParseInt. cbv beta iota zeta.
      change (Ascii.eqb "-" "-") with true.
      change (Ascii.eqb "-" "+") with false.
      cbv beta iota delta [orb negb andb].
      change ("" +:+ body) with body. rewrite Hu.
      destruct (Z.ltb_spec (2 ^ 63) (digits_value 0 body)); [lia|].
      f_equal. destruct (Z.eq_dec (digits_value 0 body) (2 ^ 63)) as [->|].
      * reflexivity.
      * rewrite (int_wrap_small (digits_value 0 body))
          by (unfold int_min, int_max; lia).
        apply int_wrap_small. unfold int_min, int_max; lia.
Qed.

Lemma Atoi_Ok_iff (s : string) (z : Z) :
  strconv.Atoi s = Ok z <-> int_text s z.
Proof.
  rewrite <- ParseInt_spec. unfold strconv.Atoi.
  destruct (strconv.ParseInt s); split; intros H; try done; congruence.
Qed.

(** [Atoi] either reads the number that the text denotes, or fails with an
    error that quotes the text, which then denotes no machine integer. *)
Lemma Atoi_cases (s : string) :
  (exists z, strconv.Atoi s = Ok z /\ int_text s z) \/
  (exists e, strconv.Atoi s = Fail e /\ Func e = "Atoi" /\ Num e = s
             /\ ~ valid_int s).
Proof.
  destruct (strconv.Atoi s) as [z|e|] eqn:H.
  - left. exists z. split; [done|]. by apply Atoi_Ok_iff.
  - right. exists e. split; [done|]. unfold strconv.Atoi in H.
    destruct (strconv.ParseInt s) eqn:Hp; [|done].
    injection H as <-. repeat split. intros [z Hz].
    apply ParseInt_spec in Hz. congruence.
  - unfold strconv.Atoi in H. by destruct (strconv.ParseInt s).
Qed.

Lemma int_text_functional (s : string) (z1 z2 : Z) :
  int_text s z1 -> int_text s z2 -> z1 = z2.
Proof. rewrite <- !Atoi_Ok_iff. congruence. Qed.

(** ** [strings.Split], [strings.Replace] and [strings.HasPrefix] *)

Lemma Split_cons (s : string) (sep : ascii) :
  exists first rest, strings.Split s sep = first :: rest.
Proof.
  destruct s as [|c r]; simpl; [by eauto|].
  destruct (Ascii.eqb c sep); [by eauto|].
  destruct (strings.Split r sep); eauto.
Qed.

Lemma Join_cons (p h : string) (t : list string) (sep : ascii) :
  strings.Join (p :: h :: t) sep = p +:+ String sep (strings.Join (h :: t) sep).
Proof. reflexivity. Qed.

Lemma Join_Split (s : string) (sep : ascii) :
  strings.Join (strings.Split s sep) sep = s.
Proof.
  induction s as [|c r IH]; [done|]. simpl.
  destruct (Split_cons r sep) as (h & t & E). rewrite E in *.
  destruct (Ascii.eqb_spec c sep) as [->|Hne].
  - rewrite Join_cons, IH. done.
  - destruct t as [|h' t].
    + simpl in *. by rewrite IH.
    + rewrite Join_cons. rewrite Join_cons in IH. rewrite <- IH.
      reflexivity.
Qed.

Lemma Split_no_sep (s : string) (sep : ascii) :
  Forall (fun piece => strings.contains_byte sep piece = false)
    (strings.Split s sep).
Proof.
  induction s as [|c r IH]; simpl.
  - by repeat constructor.
  - destruct (Ascii.eqb_spec c sep) as [->|Hne].
    + by constructor.
    + destruct (strings.Split r sep) as [|h t].
      * repeat constructor. simpl. by apply Ascii.eqb_neq in Hne as ->.
      * inversion IH; subst. constructor; [|done]. simpl.
        by apply Ascii.eqb_neq in Hne as ->.
Qed.

(** A text without a dash that denotes a number denotes a non-negative one. *)
Lemma int_text_no_dash_nonneg (s : string) (z : Z) :
  strings.contains_byte "-" s = false -> int_text s z -> 0 <= z.
Proof.
  intros Hs (sign & body & -> & Hsign & _ & Hd & -> & _).
  pose proof (digits_value_nonneg body Hd).
  destruct Hsign as [->|[->| ->]]; simpl; try lia. done.
Qed.

Lemma prefix_app (a b : string) : String.prefix a (a +:+ b) = true.
Proof.
  induction a as [|c r IH]; simpl; [by destruct b|].
  destruct (ascii_dec c c); [done|congruence].
Qed.

Lemma drop_length_app (a b : string) :
  strings.drop (String.length a) (a +:+ b) = b.
Proof. induction a as [|c r IH]; simpl; [done|apply IH]. Qed.

(** Removing a leading [old] leaves what follows it. *)
Lemma Replace1_prefix (old rest : string) :
  strings.Replace1 (old +:+ rest) old "" = rest.
Proof.
  destruct old as [|c r].
  - simpl. destruct rest; simpl; done.
  - change (String c r +:+ rest) with (String c (r +:+ rest)).
    unfold strings.Replace1; fold strings.Replace1.
    change (String c (r +:+ rest)) with (String c r +:+ rest).
    rewrite prefix_app. simpl. apply drop_length_app.
Qed.

Lemma append_assoc (a b c : string) : (a +:+ b) +:+ c = a +:+ (b +:+ c).
Proof.
  induction a as [|x r IH]; [done|].
  change (String x ((r +:+ b) +:+ c) = String x (r +:+ (b +:+ c))).
  by rewrite IH.
Qed.

(** The loop over the roots leaves the path relative to the last root that
    is a prefix, and the initial value when there is none. *)
Lemma relativize_last (file : string) (rootPaths : list string)
    (filePath : string) :
  relativize file rootPaths filePath =
  match last_matching_root file rootPaths with
  | Some rootPath => strings.Replace1 file (rootPath +:+ "/") ""
  | None => filePath
  end.
Proof.
  revert filePath. induction rootPaths as [|r rest IH]; intros acc; simpl.
  - done.
  - rewrite IH. destruct (last_matching_root file rest); [done|].
    by destruct (strings.HasPrefix file r).
Qed.

Lemma last_matching_root_app (file root : string) (pre post : list string) :
  strings.HasPrefix file root = true ->
  Forall (fun r => strings.HasPrefix file r = false) post ->
  last_matching_root file (pre ++ root :: post) = Some root.
Proof.
  intros Hroot Hpost.
  assert (Hnone : last_matching_root file post = None).
  { induction Hpost as [|r post Hr _ IH]; simpl; [done|]. by rewrite IH, Hr. }
  induction pre as [|p pre IH]; simpl.
  - by rewrite Hnone, Hroot.
  - by rewrite IH.
Qed.

Lemma last_matching_root_none (file : string) (rootPaths : list string) :
  Forall (fun r => strings.HasPrefix file r = false) rootPaths ->
  last_matching_root file rootPaths = None.
Proof.
  induction 1 as [|r rest Hr _ IH]; simpl; [done|]. by rewrite IH, Hr.
Qed.

(** The result of [parseSarifLocation] in terms of the three numbers read. *)
Lemma parseSarifLocation_Ok_inv (issue : gosec.Issue)
    (rootPaths : list string) (loc : sarif.Location) :
  parseSarifLocation issue rootPaths = Ok loc ->
  location_uri loc = relativize (gosec.File issue) rootPaths "" /\
  exists startLine endLine col,
    location_region loc = parseSarifRegion startLine endLine col.
Proof.
  unfold parseSarifLocation.
  destruct (strings.Split (gosec.Line issue) "-" !! 0%nat) as [l0|]; [|done].
  destruct (strconv.Atoi l0) as [s| |]; simpl; [|done..].
  destruct (match strings.Split (gosec.Line issue) "-" !! 1%nat with
            | Some l1 => strconv.Atoi l1 | None => Ok s end) as [e| |];
    simpl; [|done..].
  destruct (strconv.Atoi (gosec.Col issue)) as [c| |]; simpl; [|done..].
  intros [= <-]. split; [done|]. by exists s, e, c.
Qed.

(** [parseSarifLocation] succeeds exactly when the texts it reads all denote
    machine integers, and otherwise fails with the error of the first of
    them that does not. *)
Lemma parseSarifLocation_cases (issue : gosec.Issue)
    (rootPaths : list string) :
  (exists loc, parseSarifLocation issue rootPaths = Ok loc /\
               Forall valid_int (parsed_texts issue)) \/
  (exists err, parseSarifLocation issue rootPaths = Fail err /\
               Func err = "Atoi" /\ Num err ∈ parsed_texts issue /\
               ~ valid_int (Num err)).
Proof.
  unfold parsed_texts, line_segments, parseSarifLocation.
  destruct (Split_cons (gosec.Line issue) "-") as (first & rest & ->).
  change ((first :: rest) !! 0%nat) with (Some first).
  change ((first :: rest) !! 1%nat) with (rest !! 0%nat).
  destruct (Atoi_cases first) as [(s & Hs & Ts)|(e & He & Hf & Hn & Hv)].
  2:{ right. exists e. rewrite He, Hn. simpl. repeat split; try done.
      destruct rest; simpl; apply elem_of_cons; by left. }
  rewrite Hs. simpl ret_bind.
  assert (Hcol :
    forall texts : list string,
      Forall valid_int texts ->
      forall k : Z -> ret sarif.Location,
        (forall c, exists loc, k c = Ok loc) ->
        (exists loc, (try col := strconv.Atoi (gosec.Col issue) in k col)
                     = Ok loc /\
                     Forall valid_int (texts ++ [gosec.Col issue])) \/
        (exists err, (try col := strconv.Atoi (gosec.Col issue) in k col)
                     = Fail err /\
                     Func err = "Atoi" /\
                     Num err ∈ texts ++ [gosec.Col issue] /\
                     ~ valid_int (Num err))).
  { intros texts Htexts k Hk.
    destruct (Atoi_cases (gosec.Col issue))
      as [(c & Hc & Tc)|(e & He & Hf & Hn & Hv)].
    - left. rewrite Hc. simpl. destruct (Hk c) as [loc ->]. exists loc.
      split; [done|]. apply Forall_app. split; [done|].
      repeat constructor. by exists c.
    - right. exists e. rewrite He, Hn. simpl. repeat split; try done.
      apply elem_of_app. right. by apply list_elem_of_singleton. }
  destruct rest as [|second rest']; simpl.
  - apply (Hcol [first]); [repeat constructor; by exists s|]. eauto.
  - destruct (Atoi_cases second) as [(e & He & Te)|(e & He & Hf & Hn & Hv)].
    + rewrite He. simpl ret_bind.
      apply (Hcol [first; second]); [|by eauto].
      repeat constructor; [by exists s|by exists e].
    + right. exists e. rewrite He, Hn. simpl. repeat split; try done.
      apply elem_of_cons. right. apply elem_of_cons. by left.
Qed.

Lemma parseSarifLocation_Ok_iff (issue : gosec.Issue)
    (rootPaths : list string) :
  (exists loc, parseSarifLocation issue rootPaths = Ok loc) <->
  Forall valid_int (parsed_texts issue).
Proof.
  destruct (parseSarifLocation_cases issue rootPaths)
    as [(loc & Hl & Hv)|(e & He & _ & Hin & Hbad)].
  - split; eauto.
  - split.
    + intros [loc Hl]. congruence.
    + intros Hall. exfalso. apply Hbad.
      by apply (proj1 (Forall_forall _ _) Hall).
Qed.

(** ** The severity mapping *)

(** C5. [getSarifLevel] is a total function on strings: ["LOW"] gives
    ["warning"], ["MEDIUM"] and ["HIGH"] give ["error"], and every other
    string, the empty one included, gives ["note"]. It returns a level for
    every argument; there is no failing outcome. *)
Theorem getSarifLevel_exhaustive :
  getSarifLevel "LOW" = "warning" /\
  getSarifLevel "MEDIUM" = "error" /\
  getSarifLevel "HIGH" = "error" /\
  getSarifLevel "" = "note" /\
  forall s : string,
    s <> "LOW" -> s <> "MEDIUM" -> s <> "HIGH" -> getSarifLevel s = "note".
Proof.
  repeat split; try reflexivity.
  intros s Hl Hm Hh. unfold getSarifLevel.
  apply String.eqb_neq in Hl as ->. apply String.eqb_neq in Hm as ->.
  apply String.eqb_neq in Hh as ->. reflexivity.
Qed.

Lemma getSarifLevel_exhaustive_witness :
  getSarifLevel "UNDEFINED" = "note" /\ getSarifLevel "low" = "note".
Proof.
  destruct getSarifLevel_exhaustive as (_ & _ & _ & _ & H).
  split; apply H; discriminate.
Defined.

(** ** Relativizing the file path *)

(** C3, as the code has it. Among the roots that are a literal prefix of the
    file path, the last one in the caller's order is the one applied: the
    first occurrence of the root followed by a slash is removed from the
    path, once. Roots earlier in the list, matching or not, do not change
    the URI. For a path that continues with a slash after the root, what is
    left is the path below the root. *)
Theorem parseSarifLocation_last_root_applies (issue : gosec.Issue)
    (earlier later : list string) (rootPath : string) (loc : sarif.Location) :
  strings.HasPrefix (gosec.File issue) rootPath = true ->
  Forall (fun r => strings.HasPrefix (gosec.File issue) r = false) later ->
  parseSarifLocation issue (earlier ++ rootPath :: later) = Ok loc ->
  location_uri loc = strings.Replace1 (gosec.File issue) (rootPath +:+ "/") ""
  /\ forall below : string,
       gosec.File issue = rootPath +:+ "/" +:+ below ->
       location_uri loc = below.
Proof.
  intros Hroot Hlater Hloc.
  apply parseSarifLocation_Ok_inv in Hloc as [-> _].
  rewrite relativize_last, (last_matching_root_app _ _ _ _ Hroot Hlater).
  split; [done|]. intros below ->.
  rewrite <- append_assoc. apply Replace1_prefix.
Qed.

Lemma parseSarifLocation_last_root_applies_witness :
  exists loc,
    parseSarifLocation
      (example_issue "G204" "78" "" "/a/b/c.go" "42" "3" "")
      (["/a"] ++ "/a/b" :: ["/other"]) = Ok loc /\
    location_uri loc = "c.go".
Proof.
  eexists. split; [reflexivity|].
  refine (proj2 (parseSarifLocation_last_root_applies
            (example_issue "G204" "78" "" "/a/b/c.go" "42" "3" "")
            ["/a"] ["/other"] "/a/b" _ _ _ _) "c.go" _);
    [reflexivity | repeat constructor | reflexivity | reflexivity].
Defined.

(** C3 with the first matching root in place of the last does not hold:
    with roots ["/a"] and ["/a/b"] in this order the first root that is a
    prefix of ["/a/b/c.go"] is ["/a"], which would leave ["b/c.go"], but the
    URI is ["c.go"], from the later root. *)
Lemma parseSarifLocation_first_root_counterexample :
  exists loc,
    parseSarifLocation
      (example_issue "G204" "78" "" "/a/b/c.go" "42" "3" "")
      ["/a"; "/a/b"] = Ok loc /\
    first_matching_root "/a/b/c.go" ["/a"; "/a/b"] = Some "/a" /\
    strings.Replace1 "/a/b/c.go" ("/a" +:+ "/") "" = "b/c.go" /\
    location_uri loc = "c.go" /\
    location_uri loc <> "b/c.go".
Proof.
  eexists. split; [reflexivity|]. repeat split; discriminate.
Qed.

(** C2, evaluated. With the single root ["/other"], which is no prefix of
    the file path, the parse succeeds and the URI is the empty string, not
    the file path. *)
Lemma parseSarifLocation_unmatched_root_uri :
  exists loc,
    parseSarifLocation
      (example_issue "G204" "78" "" "/home/u/proj/pkg/file.go" "42" "3" "")
      ["/other"] = Ok loc /\
    strings.HasPrefix "/home/u/proj/pkg/file.go" "/other" = false /\
    location_uri loc = "" /\
    location_uri loc <> "/home/u/proj/pkg/file.go".
Proof.
  eexists. split; [reflexivity|]. repeat split; discriminate.
Qed.

(** Whenever no root is a prefix of the file path the URI is empty. *)
Lemma parseSarifLocation_no_root (issue : gosec.Issue)
    (rootPaths : list string) (loc : sarif.Location) :
  Forall (fun r => strings.HasPrefix (gosec.File issue) r = false) rootPaths ->
  parseSarifLocation issue rootPaths = Ok loc ->
  location_uri loc = "".
Proof.
  intros Hnone Hloc. apply parseSarifLocation_Ok_inv in Hloc as [-> _].
  by rewrite relativize_last, last_matching_root_none.
Qed.

(** ** First occurrences *)

Section FirstOccurrences.

Context {A : Type} (key : A -> string).

Lemma first_occurrences_from_keys (l : list A) (seen : gset string) (k : string) :
  k ∈ (key <$> first_occurrences_from key seen l) <->
  k ∈ (key <$> l) /\ k ∉ seen.
Proof.
  revert seen. induction l as [|x rest IH]; intros seen; simpl.
  - set_solver.
  - destruct (decide (key x ∈ seen)) as [Hin|Hnot]; simpl.
    + rewrite IH. set_solver.
    + rewrite !elem_of_cons, IH. split.
      * intros [->|[? ?]]; set_solver.
      * intros [[->|?] ?]; [by left|].
        destruct (decide (k = key x)) as [->|]; [by left|]. right. set_solver.
Qed.

Lemma first_occurrences_from_NoDup (l : list A) (seen : gset string) :
  NoDup (key <$> first_occurrences_from key seen l).
Proof.
  revert seen. induction l as [|x rest IH]; intros seen; simpl.
  - constructor.
  - destruct (decide (key x ∈ seen)); simpl; [apply IH|].
    constructor; [|apply IH].
    rewrite first_occurrences_from_keys. set_solver.
Qed.

Lemma first_occurrences_from_sublist (l : list A) (seen : gset string) :
  sublist (first_occurrences_from key seen l) l.
Proof.
  revert seen. induction l as [|x rest IH]; intros seen; simpl.
  - constructor.
  - destruct (decide (key x ∈ seen)); [apply sublist_cons|apply sublist_skip];
      apply IH.
Qed.

(** Each element kept is the first of the list with its key. *)
Lemma first_occurrences_from_first (l : list A) (seen : gset string) (x : A) :
  x ∈ first_occurrences_from key seen l ->
  exists pre post,
    l = pre ++ x :: post /\ key x ∉ (key <$> pre) /\ key x ∉ seen.
Proof.
  revert seen. induction l as [|y rest IH]; intros seen; simpl.
  - by intros ?%elem_of_nil.
  - destruct (decide (key y ∈ seen)) as [Hin|Hnot].
    + intros (pre & post & -> & Hpre & Hseen)%IH.
      exists (y :: pre), post. split; [done|]. split; [|done].
      simpl. rewrite not_elem_of_cons. split; [|done]. congruence.
    + intros [->|Hx]%elem_of_cons.
      * exists [], rest. split; [done|]. split; [|done]. simpl. set_solver.
      * apply IH in Hx as (pre & post & -> & Hpre & Hseen).
        exists (y :: pre), post. split; [done|]. split; [|set_solver].
        simpl. rewrite not_elem_of_cons. set_solver.
Qed.

(** A key met again adds nothing. *)
Lemma first_occurrences_from_snoc (l : list A) (seen : gset string) (x : A) :
  first_occurrences_from key seen (l ++ [x]) =
  first_occurrences_from key seen l
    ++ (if decide (key x ∈ seen \/ key x ∈ (key <$> l)) then [] else [x]).
Proof.
  revert seen. induction l as [|y rest IH]; intros seen; simpl.
  - apply decide_ext. set_solver.
  - destruct (decide (key y ∈ seen)) as [Hin|Hnot]; simpl; rewrite IH.
    + f_equal. apply decide_ext. rewrite elem_of_cons.
      split; [tauto|]. intros [?|[->|?]]; tauto.
    + do 2 f_equal. apply decide_ext.
      rewrite elem_of_cons, elem_of_union, elem_of_singleton. tauto.
Qed.

Lemma first_occurrences_NoDup (l : list A) :
  NoDup (key <$> first_occurrences key l).
Proof. apply first_occurrences_from_NoDup. Qed.

Lemma first_occurrences_keys (l : list A) (k : string) :
  k ∈ (key <$> first_occurrences key l) <-> k ∈ (key <$> l).
Proof.
  unfold first_occurrences. rewrite first_occurrences_from_keys. set_solver.
Qed.

Lemma first_occurrences_from_app (l1 l2 : list A) (seen : gset string) :
  first_occurrences_from key seen (l1 ++ l2) =
  first_occurrences_from key seen l1
    ++ first_occurrences_from key (list_to_set (key <$> l1) ∪ seen) l2.
Proof.
  revert seen. induction l1 as [|x rest IH]; intros seen; simpl.
  - by rewrite (left_id_L ∅ (∪)).
  - destruct (decide (key x ∈ seen)) as [Hin|Hnot]; simpl; rewrite IH.
    + do 2 f_equal. set_solver.
    + do 3 f_equal. set_solver.
Qed.

(** The first element with a key is kept, and it is the only one kept with
    that key. *)
Lemma first_occurrences_first_kept (pre post : list A) (x : A) :
  key x ∉ (key <$> pre) ->
  x ∈ first_occurrences key (pre ++ x :: post).
Proof.
  intros Hpre. unfold first_occurrences. rewrite first_occurrences_from_app.
  apply elem_of_app. right. simpl.
  rewrite decide_False; [apply elem_of_cons; by left|].
  rewrite (right_id_L ∅ (∪)). by rewrite elem_of_list_to_set.
Qed.

Lemma first_occurrences_same_key (l : list A) (x y : A) :
  x ∈ first_occurrences key l -> y ∈ first_occurrences key l ->
  key x = key y -> x = y.
Proof.
  intros [i Hi]%list_elem_of_lookup [j Hj]%list_elem_of_lookup Hxy.
  pose proof (first_occurrences_NoDup l) as Hnd.
  assert (i = j) as ->; [|congruence].
  apply (NoDup_lookup _ i j (key x) Hnd); rewrite list_lookup_fmap.
  - by rewrite Hi.
  - by rewrite Hj, Hxy.
Qed.

Lemma first_occurrences_sublist (l : list A) :
  sublist (first_occurrences key l) l.
Proof. apply first_occurrences_from_sublist. Qed.

Lemma first_occurrences_first (l : list A) (x : A) :
  x ∈ first_occurrences key l ->
  exists pre post, l = pre ++ x :: post /\ key x ∉ (key <$> pre).
Proof.
  intros (pre & post & -> & Hpre & _)%first_occurrences_from_first. eauto.
Qed.

(** The keys of the first occurrences are the first occurrences of the
    keys. *)
Lemma first_occurrences_from_fmap (l : list A) (seen : gset string) :
  key <$> first_occurrences_from key seen l =
  first_occurrences_from (fun k : string => k) seen (key <$> l).
Proof.
  revert seen. induction l as [|x rest IH]; intros seen; simpl; [done|].
  destruct (decide (key x ∈ seen)); simpl; by rewrite IH.
Qed.

End FirstOccurrences.

(** ** The registries built by the loop *)

Section Registries.

Variable cwe_Get : string -> cwe.Weakness.
Variable Score_String : gosec.Score -> string.
Variable ReadBuildInfo : option string.

Abbreviation step := (convert_issue cwe_Get Score_String).
Abbreviation loop := (convert_issues cwe_Get Score_String).
Abbreviation convert := (convertToSarifReport cwe_Get Score_String ReadBuildInfo).
Abbreviation taxon_of := (finding_taxon cwe_Get).
Abbreviation rule_of := (finding_rule cwe_Get Score_String).
Abbreviation cached := (weaknesses_cached cwe_Get).

Lemma step_outcome (rootPaths : list string) (st : registry)
    (issue : gosec.Issue) :
  match parseSarifLocation issue rootPaths with
  | Ok _ => exists st', step rootPaths st issue = Ok st'
  | Fail e => step rootPaths st issue = Fail e
  | Panic => step rootPaths st issue = Panic
  end.
Proof.
  unfold convert_issue.
  destruct (weaknesses _ !! _); destruct (rulesIndices _ !! _);
    destruct (parseSarifLocation _ _); simpl; eauto.
Qed.

Lemma step_taxa (rootPaths : list string) (st st' : registry)
    (issue : gosec.Issue) :
  step rootPaths st issue = Ok st' ->
  taxa st' =
    taxa st ++ (if decide (cwe_id issue ∈ dom (weaknesses st)) then []
                else [taxon_of issue]) /\
  dom (weaknesses st') = {[cwe_id issue]} ∪ dom (weaknesses st) /\
  (cached st ->
   cached st' /\
   weaknesses st' !! cwe_id issue = Some (cwe_Get (cwe_id issue))).
Proof.
  intros H. unfold cwe_id, finding_taxon, cwe_id in *.
  unfold convert_issue in H.
  destruct (weaknesses st !! gosec.ID (gosec.Cwe issue)) as [w|] eqn:Hw.
  - assert (Hin : gosec.ID (gosec.Cwe issue) ∈ dom (weaknesses st))
      by (apply elem_of_dom; eauto).
    destruct (rulesIndices st !! gosec.RuleID issue);
      destruct (parseSarifLocation issue rootPaths);
      simpl in H; try discriminate H; injection H as <-; simpl.
    all: rewrite decide_True by done; rewrite app_nil_r.
    all: split; [done|]; split; [set_solver|].
    all: intros Hc; split; [done|]; rewrite Hw; f_equal; by apply Hc.
  - assert (Hin : gosec.ID (gosec.Cwe issue) ∉ dom (weaknesses st))
      by (by apply not_elem_of_dom).
    destruct (rulesIndices st !! gosec.RuleID issue);
      destruct (parseSarifLocation issue rootPaths);
      simpl in H; try discriminate H; injection H as <-; simpl.
    all: rewrite decide_False by done.
    all: split; [done|]; split; [by rewrite dom_insert_L|].
    all: intros Hc; split; [|by rewrite lookup_insert_eq].
    all: intros id w' Hw'; simpl in Hw'.
    all: destruct (decide (id = gosec.ID (gosec.Cwe issue))) as [->|Hne].
    all: try (rewrite lookup_insert_eq in Hw'; congruence).
    all: rewrite lookup_insert_ne in Hw' by done; by apply Hc.
Qed.

Lemma step_rules (rootPaths : list string) (st st' : registry)
    (issue : gosec.Issue) :
  cached st ->
  step rootPaths st issue = Ok st' ->
  rules st' =
    rules st ++ (if decide (gosec.RuleID issue ∈ dom (rulesIndices st))
                 then [] else [rule_of issue]) /\
  dom (rulesIndices st') = {[gosec.RuleID issue]} ∪ dom (rulesIndices st).
Proof.
  intros Hc H. pose proof (step_taxa _ _ _ _ H) as (_ & _ & Hw).
  destruct (Hw Hc) as [_ Hid]. clear Hw. revert Hid.
  unfold finding_rule, cwe_id in *. unfold convert_issue in H.
  destruct (rulesIndices st !! gosec.RuleID issue) as [r|] eqn:Hr.
  - assert (Hin : gosec.RuleID issue ∈ dom (rulesIndices st))
      by (apply elem_of_dom; eauto).
    destruct (weaknesses st !! gosec.ID (gosec.Cwe issue));
      destruct (parseSarifLocation issue rootPaths);
      simpl in H; try discriminate H; injection H as <-; simpl.
    all: intros _; rewrite decide_True by done; rewrite app_nil_r.
    all: split; [done|set_solver].
  - assert (Hin : gosec.RuleID issue ∉ dom (rulesIndices st))
      by (by apply not_elem_of_dom).
    destruct (weaknesses st !! gosec.ID (gosec.Cwe issue)) eqn:Hw;
      destruct (parseSarifLocation issue rootPaths);
      simpl in H; try discriminate H; injection H as <-; simpl.
    all: intros Hid; rewrite decide_False by done.
    all: split; [|by rewrite dom_insert_L].
    + by rewrite Hid.
    + by rewrite lookup_insert_eq.
Qed.

Lemma rules_indexed_init : rules_indexed registry_init.
Proof.
  split; [done|]. intros id r H. simpl in H. by rewrite lookup_empty in H.
Qed.

Lemma weaknesses_cached_init : cached registry_init.
Proof. intros id w H. simpl in H. by rewrite lookup_empty in H. Qed.

(** One iteration keeps the rule list indexed, lengthens it by at most one
    descriptor, and appends a result that refers to the finding's rule. *)
Lemma step_index (rootPaths : list string) (st st' : registry)
    (issue : gosec.Issue) :
  rules_indexed st ->
  Z.of_nat (length (rules st)) <= int_max ->
  step rootPaths st issue = Ok st' ->
  rules_indexed st' /\
  (exists extra, rules st' = rules st ++ extra /\ (length extra <= 1)%nat) /\
  exists res,
    results st' = results st ++ [res] /\ result_refers (rules st') issue res.
Proof.
  intros [Hlast Hidx] Hlen H. unfold convert_issue in H.
  destruct (rulesIndices st !! gosec.RuleID issue) as [r|] eqn:Hr.
  - destruct (Hidx _ _ Hr) as (k & Hk & Hlook & Hid).
    destruct (weaknesses st !! gosec.ID (gosec.Cwe issue));
      destruct (parseSarifLocation issue rootPaths);
      simpl in H; try discriminate H; injection H as <-; simpl.
    all: split; [by split|].
    all: split; [exists []; split; [by rewrite app_nil_r|simpl; lia]|].
    all: eexists; split; [done|].
    all: split; [done|]; exists k, (rule_descriptor r); by simpl.
  - set (n := length (rules st)) in *.
    assert (Hwrap : int_wrap (lastRuleIndex st + 1) = Z.of_nat n).
    { rewrite Hlast. replace (Z.of_nat n - 1 + 1) with (Z.of_nat n) by lia.
      apply int_wrap_small. unfold int_min, int_max in *. lia. }
    destruct (weaknesses st !! gosec.ID (gosec.Cwe issue));
      destruct (parseSarifLocation issue rootPaths);
      simpl in H; try discriminate H; injection H as <-; simpl.
    all: rewrite Hwrap.
    all: split; [|split; [by eexists; split; [done|simpl; lia]|] ].
    all: try (eexists; split; [done|]; split; [done|]; simpl;
              eexists n, _; split; [done|]; split;
              [rewrite lookup_app_r by (subst n; lia);
               replace (n - length (rules st))%nat with 0%nat
                 by (subst n; lia);
               reflexivity
              |done]).
    all: split; simpl; [rewrite length_app; simpl; subst n; lia|].
    all: intros id r' Hr'.
    all: destruct (decide (id = gosec.RuleID issue)) as [->|Hne].
    all: try (rewrite lookup_insert_eq in Hr'; injection Hr' as <-; simpl;
              exists n; split; [done|]; split; [|done];
              rewrite lookup_app_r by (subst n; lia);
              replace (n - length (rules st))%nat with 0%nat by (subst n; lia);
              done).
    all: rewrite lookup_insert_ne in Hr' by done.
    all: destruct (Hidx _ _ Hr') as (k & Hk & Hlook & Hid).
    all: exists k; split; [done|]; split; [|done].
    all: by apply lookup_app_l_Some.
Qed.

Lemma loop_cons_Ok (rootPaths : list string) (st st' : registry)
    (issue : gosec.Issue) (rest : list gosec.Issue) :
  loop rootPaths st (issue :: rest) = Ok st' ->
  exists st1, step rootPaths st issue = Ok st1 /\ loop rootPaths st1 rest = Ok st'.
Proof.
  simpl. destruct (step rootPaths st issue) as [st1| |]; simpl; [|done..].
  eauto.
Qed.

(** The taxa appended by the loop are those of the findings that mention a
    weakness not cached before. *)
Lemma loop_taxa (rootPaths : list string) (issues : list gosec.Issue) :
  forall st st',
    loop rootPaths st issues = Ok st' ->
    taxa st' =
      taxa st ++ (taxon_of <$>
                    first_occurrences_from cwe_id (dom (weaknesses st)) issues)
    /\ (cached st -> cached st').
Proof.
  induction issues as [|issue rest IH]; intros st st' H.
  - injection H as <-. simpl. by rewrite app_nil_r.
  - apply loop_cons_Ok in H as (st1 & H1 & Hrest).
    destruct (step_taxa _ _ _ _ H1) as (Ht & Hd & Hc).
    destruct (IH _ _ Hrest) as [Ht' Hc']. rewrite Ht', Ht, Hd. simpl.
    split; [|intros Hst; apply Hc', Hc, Hst].
    destruct (decide (cwe_id issue ∈ dom (weaknesses st))) as [Hin|Hnot].
    + rewrite app_nil_r. do 2 f_equal.
      replace ({[cwe_id issue]} ∪ dom (weaknesses st))
        with (dom (weaknesses st)) by set_solver.
      done.
    + by rewrite <- app_assoc.
Qed.

(** The rules appended by the loop are those of the findings that mention a
    rule not registered before. *)
Lemma loop_rules (rootPaths : list string) (issues : list gosec.Issue) :
  forall st st',
    cached st ->
    loop rootPaths st issues = Ok st' ->
    rules st' =
      rules st ++ (rule_of <$>
                     first_occurrences_from gosec.RuleID
                       (dom (rulesIndices st)) issues).
Proof.
  induction issues as [|issue rest IH]; intros st st' Hc H.
  - injection H as <-. simpl. by rewrite app_nil_r.
  - apply loop_cons_Ok in H as (st1 & H1 & Hrest).
    destruct (step_rules _ _ _ _ Hc H1) as (Hr & Hd).
    destruct (step_taxa _ _ _ _ H1) as (_ & _ & Hc1).
    rewrite (IH _ _ (proj1 (Hc1 Hc)) Hrest), Hr, Hd. simpl.
    destruct (decide (gosec.RuleID issue ∈ dom (rulesIndices st)))
      as [Hin|Hnot].
    + rewrite app_nil_r. do 2 f_equal.
      replace ({[gosec.RuleID issue]} ∪ dom (rulesIndices st))
        with (dom (rulesIndices st)) by set_solver.
      done.
    + by rewrite <- app_assoc.
Qed.

Lemma result_refers_app (rs extra : list sarif.ReportingDescriptor)
    (issue : gosec.Issue) (res : sarif.Result) :
  result_refers rs issue res -> result_refers (rs ++ extra) issue res.
Proof.
  intros (Hid & k & d & Hk & Hlook & Hd). split; [done|].
  exists k, d. split; [done|]. split; [|done]. by apply lookup_app_l_Some.
Qed.

(** The results appended by the loop are one per finding, in order, each
    referring to the rule of its finding in the final rule list. *)
Lemma loop_results (rootPaths : list string) (issues : list gosec.Issue) :
  forall st st',
    rules_indexed st ->
    Z.of_nat (length (rules st) + length issues) <= int_max ->
    loop rootPaths st issues = Ok st' ->
    rules_indexed st' /\
    (exists extra,
       rules st' = rules st ++ extra /\ (length extra <= length issues)%nat) /\
    exists new,
      results st' = results st ++ new /\
      Forall2 (result_refers (rules st')) issues new.
Proof.
  induction issues as [|issue rest IH]; intros st st' Hi Hlen H.
  - injection H as <-. split; [done|]. split.
    + exists []. by rewrite app_nil_r.
    + exists []. by rewrite app_nil_r.
  - apply loop_cons_Ok in H as (st1 & H1 & Hrest). simpl in Hlen.
    destruct (step_index _ _ _ _ Hi ltac:(lia) H1)
      as (Hi1 & (e1 & He1 & Hl1) & res & Hres & Href).
    assert (Hlen1 : Z.of_nat (length (rules st1) + length rest) <= int_max).
    { rewrite He1, length_app. lia. }
    destruct (IH _ _ Hi1 Hlen1 Hrest)
      as (Hi' & (e2 & He2 & Hl2) & new & Hnew & Hall).
    split; [done|]. split.
    + exists (e1 ++ e2). rewrite He2, He1, <- app_assoc. split; [done|].
      rewrite length_app. simpl. lia.
    + exists (res :: new). rewrite Hnew, Hres, <- app_assoc. split; [done|].
      constructor; [|done]. rewrite He2. by apply result_refers_app.
Qed.

(** The loop stops with the error of the first finding whose location does
    not parse, and completes when there is none. *)
Lemma loop_outcome (rootPaths : list string) (issues : list gosec.Issue) :
  forall st,
    match loop rootPaths st issues with
    | Ok _ =>
        Forall (fun issue => exists loc,
                  parseSarifLocation issue rootPaths = Ok loc) issues
    | Fail e =>
        exists pre issue post,
          issues = pre ++ issue :: post /\
          Forall (fun issue => exists loc,
                    parseSarifLocation issue rootPaths = Ok loc) pre /\
          parseSarifLocation issue rootPaths = Fail e
    | Panic =>
        exists issue, issue ∈ issues /\
          parseSarifLocation issue rootPaths = Panic
    end.
Proof.
  induction issues as [|issue rest IH]; intros st; simpl; [done|].
  pose proof (step_outcome rootPaths st issue) as Hs.
  destruct (parseSarifLocation issue rootPaths) as [loc|e|] eqn:Hl.
  - destruct Hs as [st1 ->]. simpl. specialize (IH st1).
    destruct (loop rootPaths st1 rest) as [st'|e|].
    + constructor; eauto.
    + destruct IH as (pre & bad & post & -> & Hpre & Hbad).
      exists (issue :: pre), bad, post. split; [done|].
      split; [constructor; eauto|done].
    + destruct IH as (bad & Hin & Hbad). exists bad. split; [|done].
      by apply elem_of_cons; right.
  - rewrite Hs. simpl. exists [], issue, rest. by repeat split.
  - rewrite Hs. simpl. exists issue. split; [apply elem_of_cons; by left|done].
Qed.

(** The document of a successful conversion, in terms of the final state. *)
Lemma convert_Ok_inv (rootPaths : list string) (data : reportInfo)
    (doc : sarif.Report) :
  convert rootPaths data = Ok doc ->
  exists st driver,
    loop rootPaths registry_init (Issues data) = Ok st /\
    buildSarifDriver ReadBuildInfo (rules st) = Ok driver /\
    sarif.tc_Rules driver = rules st /\
    doc = buildSarifReport
            (buildSarifRun (results st) (buildSarifTaxonomies (taxa st))
               (buildSarifTool driver)).
Proof.
  unfold convertToSarifReport.
  destruct (loop rootPaths registry_init (Issues data)) as [st| |];
    simpl; [|done..].
  destruct (buildSarifDriver ReadBuildInfo (rules st)) as [driver| |] eqn:Hd;
    simpl; [|done..].
  intros [= <-]. exists st, driver. do 2 (split; [done|]). split; [|done].
  unfold buildSarifDriver in Hd. destruct ReadBuildInfo as [[|c v]|];
    simpl in Hd; try discriminate Hd; by injection Hd as <-.
Qed.

End Registries.

(** ** The document of a conversion *)

Section ConverterClaims.

Variable cwe_Get : string -> cwe.Weakness.
Variable Score_String : gosec.Score -> string.
Variable ReadBuildInfo : option string.

Abbreviation convert :=
  (convertToSarifReport cwe_Get Score_String ReadBuildInfo).

(** What a successful conversion returns: one run, whose rule list, taxa and
    results are those of the loop's final state. *)
Lemma convert_Ok_run (rootPaths : list string) (data : reportInfo)
    (doc : sarif.Report) :
  convert rootPaths data = Ok doc ->
  exists st run taxonomy,
    convert_issues cwe_Get Score_String rootPaths registry_init (Issues data)
      = Ok st /\
    sarif.Runs doc = [run] /\
    sarif.Taxonomies run = [taxonomy] /\
    run_rules run = rules st /\
    sarif.tc_Taxa taxonomy = taxa st /\
    sarif.Results run = results st /\
    sarif.tc_Guid taxonomy = uuid3 cweAcronym /\
    sarif.tc_SupportedTaxonomies (sarif.Driver (sarif.run_Tool run)) =
      [ {| sarif.tcr_Name := cweAcronym; sarif.tcr_Index := 1;
           sarif.tcr_Guid := uuid3 cweAcronym |} ].
Proof.
  intros (st & driver & Hloop & Hdriver & Hrules & ->)%convert_Ok_inv.
  eexists st, _, _. split; [done|]. do 2 (split; [reflexivity|]).
  split; [exact Hrules|]. do 3 (split; [reflexivity|]).
  unfold buildSarifDriver in Hdriver. destruct ReadBuildInfo as [[|c v]|];
    simpl in Hdriver; try discriminate Hdriver; by injection Hdriver as <-.
Qed.

Lemma convert_rules (rootPaths : list string) (data : reportInfo)
    (doc : sarif.Report) :
  convert rootPaths data = Ok doc ->
  exists run,
    sarif.Runs doc = [run] /\
    run_rules run =
      finding_rule cwe_Get Score_String
        <$> first_occurrences gosec.RuleID (Issues data).
Proof.
  intros (st & run & tx & Hloop & Hrun & _ & Hrules & _)%convert_Ok_run.
  exists run. split; [done|]. rewrite Hrules.
  by rewrite (loop_rules _ _ _ _ _ _ (weaknesses_cached_init _) Hloop).
Qed.

Lemma convert_taxa (rootPaths : list string) (data : reportInfo)
    (doc : sarif.Report) :
  convert rootPaths data = Ok doc ->
  exists run taxonomy,
    sarif.Runs doc = [run] /\
    sarif.Taxonomies run = [taxonomy] /\
    sarif.tc_Taxa taxonomy =
      finding_taxon cwe_Get <$> first_occurrences cwe_id (Issues data).
Proof.
  intros (st & run & tx & Hloop & Hrun & Htx & _ & Htaxa & _)%convert_Ok_run.
  exists run, tx. do 2 (split; [done|]). rewrite Htaxa.
  by rewrite (proj1 (loop_taxa _ _ _ _ _ _ Hloop)).
Qed.

Lemma finding_rule_Id (issue : gosec.Issue) :
  sarif.rd_Id (finding_rule cwe_Get Score_String issue) = gosec.RuleID issue.
Proof. reflexivity. Qed.

Lemma rule_ids_first_occurrences (issues : list gosec.Issue) :
  sarif.rd_Id <$> (finding_rule cwe_Get Score_String
                     <$> first_occurrences gosec.RuleID issues) =
  first_occurrences (fun id : string => id) (gosec.RuleID <$> issues).
Proof.
  rewrite <- list_fmap_compose.
  etrans; [|apply first_occurrences_from_fmap].
  by apply list_fmap_ext.
Qed.

(** The conversion returns a document when every location parses and the
    build information, if there is any, has a non-empty version. *)
Lemma convert_succeeds (rootPaths : list string) (data : reportInfo) :
  Forall (fun issue => exists loc, parseSarifLocation issue rootPaths = Ok loc)
    (Issues data) ->
  ReadBuildInfo <> Some "" ->
  exists doc, convert rootPaths data = Ok doc.
Proof.
  intros Hparse Hinfo.
  pose proof (loop_outcome cwe_Get Score_String rootPaths (Issues data)
                registry_init) as Hloop.
  unfold convertToSarifReport.
  destruct (convert_issues cwe_Get Score_String rootPaths registry_init
              (Issues data)) as [st|e|]; simpl.
  - unfold buildSarifDriver. destruct ReadBuildInfo as [[|c v]|]; simpl;
      [done|eauto..].
  - exfalso. destruct Hloop as (pre & bad & post & Hsplit & _ & Hfail).
    assert (Hin : bad ∈ Issues data).
    { rewrite Hsplit. apply elem_of_app. right. apply elem_of_cons. by left. }
    destruct (proj1 (Forall_forall _ _) Hparse bad Hin) as [loc Hloc].
    congruence.
  - exfalso. destruct Hloop as (bad & Hin & Hpanic).
    destruct (proj1 (Forall_forall _ _) Hparse bad Hin) as [loc Hloc].
    congruence.
Qed.

(** C1. On findings whose locations all parse, in a number that a Go slice
    can hold, and with build information that, if there is any, has a
    non-empty version, the conversion returns a document with one run, whose
    rule list holds exactly one descriptor per distinct rule identifier of
    the findings, in the order in which the identifiers first occur. There
    is one result per finding, in
    order; it carries the finding's rule identifier, and its [RuleIndex] is
    the zero-based position in the final rule list of the descriptor with
    that identifier, which is also the position of the identifier among the
    first occurrences. Results with the same rule identifier carry the same
    index, and the rule list of the conversion of any initial part of the
    findings is an initial part of the rule list, so that a descriptor keeps
    the position it was given. *)
Theorem convertToSarifReport_rule_index (rootPaths : list string)
    (data : reportInfo) :
  Z.of_nat (length (Issues data)) <= int_max ->
  Forall (fun issue => exists loc, parseSarifLocation issue rootPaths = Ok loc)
    (Issues data) ->
  ReadBuildInfo <> Some "" ->
  exists doc run,
    convert rootPaths data = Ok doc /\
    sarif.Runs doc = [run] /\
    sarif.rd_Id <$> run_rules run =
      first_occurrences (fun id : string => id)
        (gosec.RuleID <$> Issues data) /\
    NoDup (sarif.rd_Id <$> run_rules run) /\
    (forall id : string,
       id ∈ (sarif.rd_Id <$> run_rules run) <->
       id ∈ (gosec.RuleID <$> Issues data)) /\
    Forall2
      (fun issue res =>
         sarif.RuleId res = gosec.RuleID issue /\
         exists (k : nat) (d : sarif.ReportingDescriptor),
           sarif.RuleIndex res = Z.of_nat k /\
           run_rules run !! k = Some d /\
           sarif.rd_Id d = sarif.RuleId res /\
           first_occurrences (fun id : string => id)
             (gosec.RuleID <$> Issues data) !! k = Some (gosec.RuleID issue))
      (Issues data) (sarif.Results run) /\
    (forall r1 r2 : sarif.Result,
       r1 ∈ sarif.Results run -> r2 ∈ sarif.Results run ->
       sarif.RuleId r1 = sarif.RuleId r2 ->
       sarif.RuleIndex r1 = sarif.RuleIndex r2) /\
    (forall (pre post : list gosec.Issue) (doc' : sarif.Report),
       Issues data = pre ++ post ->
       convert rootPaths {| Issues := pre |} = Ok doc' ->
       exists run',
         sarif.Runs doc' = [run'] /\
         run_rules run' `prefix_of` run_rules run).
Proof.
  intros Hlen Hparse Hinfo.
  destruct (convert_succeeds _ _ Hparse Hinfo) as [doc Hdoc].
  destruct (convert_rules _ _ _ Hdoc) as (run' & Hrun' & Hfirst).
  destruct (convert_Ok_run _ _ _ Hdoc)
    as (st & run & tx & Hloop & Hrun & _ & Hrules & _ & Hresults & _).
  assert (run' = run) as -> by congruence. clear Hrun'.
  pose proof (rule_ids_first_occurrences (Issues data)) as Hids.
  rewrite <- Hfirst in Hids.
  assert (Hnd : NoDup (sarif.rd_Id <$> run_rules run)).
  { rewrite Hids. rewrite <- (list_fmap_id (first_occurrences _ _)).
    apply first_occurrences_NoDup. }
  destruct (loop_results cwe_Get Score_String rootPaths (Issues data)
              registry_init st (rules_indexed_init) ltac:(simpl; lia) Hloop)
    as (_ & _ & new & Hnew & Hall).
  simpl in Hnew. rewrite <- Hresults, <- Hrules in *. subst new.
  assert (Hrefs :
    Forall2
      (fun issue res =>
         sarif.RuleId res = gosec.RuleID issue /\
         exists (k : nat) (d : sarif.ReportingDescriptor),
           sarif.RuleIndex res = Z.of_nat k /\
           run_rules run !! k = Some d /\
           sarif.rd_Id d = sarif.RuleId res /\
           first_occurrences (fun id : string => id)
             (gosec.RuleID <$> Issues data) !! k = Some (gosec.RuleID issue))
      (Issues data) (sarif.Results run)).
  { eapply Forall2_impl; [exact Hall|].
    intros issue res (Hid & k & d & Hk & Hlook & Hd). split; [done|].
    exists k, d. do 2 (split; [done|]). split; [congruence|].
    rewrite <- Hids, list_lookup_fmap, Hlook. simpl. by rewrite Hd. }
  exists doc, run. do 4 (split; [done|]). split.
  { intros id. rewrite Hids.
    rewrite <- (list_fmap_id (first_occurrences _ _)).
    rewrite first_occurrences_keys. by rewrite list_fmap_id. }
  split; [done|]. split.
  { intros r1 r2 [i1 Hi1]%list_elem_of_lookup [i2 Hi2]%list_elem_of_lookup
      Heq.
    destruct (Forall2_lookup_r _ _ _ _ _ Hrefs Hi1)
      as (a1 & _ & _ & k1 & d1 & Hk1 & Hl1 & Hd1 & _).
    destruct (Forall2_lookup_r _ _ _ _ _ Hrefs Hi2)
      as (a2 & _ & _ & k2 & d2 & Hk2 & Hl2 & Hd2 & _).
    rewrite Hk1, Hk2. f_equal.
    apply (NoDup_lookup _ k1 k2 (sarif.RuleId r1) Hnd);
      rewrite list_lookup_fmap.
    - by rewrite Hl1; simpl; rewrite Hd1.
    - by rewrite Hl2; simpl; rewrite Hd2, Heq. }
  intros pre post doc' Hsplit Hdoc'.
  destruct (convert_rules _ _ _ Hdoc') as (run' & Hrun' & Hpre).
  exists run'. split; [done|]. rewrite Hpre, Hfirst, Hsplit. simpl.
  unfold first_occurrences. rewrite first_occurrences_from_app, fmap_app.
  by eexists.
Qed.

(** C7. The taxa of a successful conversion are one taxon per distinct
    weakness identifier of the findings, in the order in which the
    identifiers first occur; each is built from the catalog entry of the
    identifier and the reference URL of the first finding that mentions it.
    A further finding with a weakness identifier already met leaves the taxa
    as they are. *)
Theorem convertToSarifReport_taxa_first_seen (rootPaths : list string)
    (data : reportInfo) (doc : sarif.Report) :
  convert rootPaths data = Ok doc ->
  exists run taxonomy,
    sarif.Runs doc = [run] /\
    sarif.Taxonomies run = [taxonomy] /\
    sarif.tc_Taxa taxonomy =
      finding_taxon cwe_Get <$> first_occurrences cwe_id (Issues data) /\
    sarif.rd_HelpUri <$> sarif.tc_Taxa taxonomy =
      (fun issue => gosec.URL (gosec.Cwe issue))
        <$> first_occurrences cwe_id (Issues data) /\
    length (sarif.tc_Taxa taxonomy) =
      length (first_occurrences (fun id : string => id)
                (cwe_id <$> Issues data)) /\
    NoDup (cwe_id <$> first_occurrences cwe_id (Issues data)) /\
    (forall id : string,
       id ∈ (cwe_id <$> first_occurrences cwe_id (Issues data)) <->
       id ∈ (cwe_id <$> Issues data)) /\
    (forall issue : gosec.Issue,
       issue ∈ first_occurrences cwe_id (Issues data) ->
       exists pre post,
         Issues data = pre ++ issue :: post /\
         cwe_id issue ∉ (cwe_id <$> pre)) /\
    (forall (later : gosec.Issue) (doc' : sarif.Report),
       cwe_id later ∈ (cwe_id <$> Issues data) ->
       convert rootPaths {| Issues := Issues data ++ [later] |} = Ok doc' ->
       exists run' taxonomy',
         sarif.Runs doc' = [run'] /\
         sarif.Taxonomies run' = [taxonomy'] /\
         sarif.tc_Taxa taxonomy' = sarif.tc_Taxa taxonomy).
Proof.
  intros Hdoc.
  destruct (convert_taxa _ _ _ Hdoc) as (run & tx & Hrun & Htx & Htaxa).
  exists run, tx. do 3 (split; [done|]). split.
  { rewrite Htaxa, <- list_fmap_compose. by apply list_fmap_ext. }
  split.
  { rewrite Htaxa, length_fmap.
    rewrite <- (length_fmap cwe_id (first_occurrences cwe_id _)).
    f_equal. apply first_occurrences_from_fmap. }
  split; [apply first_occurrences_NoDup|].
  split; [intros id; apply first_occurrences_keys|].
  split; [intros issue; apply first_occurrences_first|].
  intros later doc' Hseen Hdoc'.
  destruct (convert_taxa _ _ _ Hdoc') as (run' & tx' & Hrun' & Htx' & Htaxa').
  exists run', tx'. do 2 (split; [done|]). rewrite Htaxa', Htaxa. simpl.
  unfold first_occurrences. rewrite first_occurrences_from_snoc.
  rewrite decide_True by (by right). by rewrite app_nil_r.
Qed.

(** C8. The rule list of a successful conversion holds, for every rule
    identifier, the descriptor built from the first finding with that
    identifier and from the catalog entry of that finding's weakness. So for
    a finding [first] that is the first with its rule identifier and a
    finding [later] with the same identifier, whatever its weakness, the
    rule list has exactly one descriptor with the identifier; all its
    fields, the one taxonomy relationship included, are those of [first]. *)
Theorem convertToSarifReport_rule_first_seen (rootPaths : list string)
    (data : reportInfo) (doc : sarif.Report)
    (pre mid post : list gosec.Issue) (first later : gosec.Issue) :
  convert rootPaths data = Ok doc ->
  Issues data = pre ++ first :: mid ++ later :: post ->
  gosec.RuleID first ∉ (gosec.RuleID <$> pre) ->
  gosec.RuleID later = gosec.RuleID first ->
  exists run d,
    sarif.Runs doc = [run] /\
    run_rules run =
      finding_rule cwe_Get Score_String
        <$> first_occurrences gosec.RuleID (Issues data) /\
    NoDup (sarif.rd_Id <$> run_rules run) /\
    d ∈ run_rules run /\
    (forall d' : sarif.ReportingDescriptor,
       d' ∈ run_rules run ->
       sarif.rd_Id d' = gosec.RuleID later -> d' = d) /\
    d = parseSarifRule Score_String first (cwe_Get (cwe_id first)) /\
    sarif.rd_Relationships d =
      [ buildSarifReportingDescriptorRelationship (cwe_Get (cwe_id first)) ].
Proof.
  intros Hdoc Hsplit Hpre Hsame.
  destruct (convert_rules _ _ _ Hdoc) as (run & Hrun & Hrules).
  exists run, (finding_rule cwe_Get Score_String first).
  do 2 (split; [done|]). split.
  { rewrite Hrules, rule_ids_first_occurrences.
    rewrite <- (list_fmap_id (first_occurrences _ _)).
    apply first_occurrences_NoDup. }
  assert (Hfirst : first ∈ first_occurrences gosec.RuleID (Issues data)).
  { rewrite Hsplit. by apply first_occurrences_first_kept. }
  split; [rewrite Hrules; by apply list_elem_of_fmap_2|].
  split; [|done].
  intros d' Hd' Hid. rewrite Hrules in Hd'.
  apply list_elem_of_fmap in Hd' as (other & -> & Hother). f_equal.
  apply (first_occurrences_same_key gosec.RuleID (Issues data)); try done.
  rewrite finding_rule_Id in Hid. congruence.
Qed.

(** C10. In a successful conversion every rule descriptor has exactly one
    taxonomy relationship, and its target names a taxon of the taxonomy:
    some taxon of the taxa list has the target's [Id] as its identifier and
    the target's [Guid] as its [Guid]. Every finding has such a rule in the
    rule list. *)
Theorem convertToSarifReport_relationship_target (rootPaths : list string)
    (data : reportInfo) (doc : sarif.Report) :
  convert rootPaths data = Ok doc ->
  exists run taxonomy,
    sarif.Runs doc = [run] /\
    sarif.Taxonomies run = [taxonomy] /\
    (forall rule : sarif.ReportingDescriptor,
       rule ∈ run_rules run ->
       exists rel taxon,
         sarif.rd_Relationships rule = [rel] /\
         taxon ∈ sarif.tc_Taxa taxonomy /\
         sarif.rd_Id taxon = sarif.rdr_Id (sarif.Target rel) /\
         sarif.rd_Guid taxon = sarif.rdr_Guid (sarif.Target rel) /\
         sarif.tc_Name taxonomy
           = sarif.tcr_Name (sarif.rdr_ToolComponent (sarif.Target rel))) /\
    (forall issue : gosec.Issue,
       issue ∈ Issues data ->
       exists rule,
         rule ∈ run_rules run /\ sarif.rd_Id rule = gosec.RuleID issue).
Proof.
  intros Hdoc.
  destruct (convert_taxa _ _ _ Hdoc) as (run & tx & Hrun & Htx & Htaxa).
  destruct (convert_rules _ _ _ Hdoc) as (run' & Hrun' & Hrules).
  assert (run' = run) as -> by congruence.
  assert (Hname : sarif.tc_Name tx = cweAcronym).
  { apply convert_Ok_inv in Hdoc as (st & driver & _ & _ & _ & ->).
    simpl in Hrun, Htx. injection Hrun as <-. simpl in Htx.
    by injection Htx as <-. }
  exists run, tx. do 2 (split; [done|]). split.
  - intros rule Hrule. rewrite Hrules in Hrule.
    apply list_elem_of_fmap in Hrule as (issue & -> & Hissue).
    assert (Hid : cwe_id issue ∈ (cwe_id <$> Issues data)).
    { apply list_elem_of_fmap_2.
      eapply elem_of_sublist; [done|apply first_occurrences_sublist]. }
    apply first_occurrences_keys in Hid.
    apply list_elem_of_fmap in Hid as (seen & Hseen & Hin).
    exists (buildSarifReportingDescriptorRelationship
              (cwe_Get (cwe_id issue))),
      (finding_taxon cwe_Get seen).
    split; [done|]. split; [rewrite Htaxa; by apply list_elem_of_fmap_2|].
    unfold finding_taxon. rewrite <- Hseen. by rewrite Hname.
  - intros issue Hissue.
    assert (Hid : gosec.RuleID issue ∈ (gosec.RuleID <$> Issues data))
      by (by apply list_elem_of_fmap_2).
    apply first_occurrences_keys in Hid.
    apply list_elem_of_fmap in Hid as (seen & Hseen & Hin).
    exists (finding_rule cwe_Get Score_String seen).
    split; [rewrite Hrules; by apply list_elem_of_fmap_2|].
    by rewrite finding_rule_Id.
Qed.

Lemma buildSarifDriver_outcome (rs : list sarif.ReportingDescriptor) :
  (ReadBuildInfo <> Some "" /\
   exists driver, buildSarifDriver ReadBuildInfo rs = Ok driver) \/
  (ReadBuildInfo = Some "" /\ buildSarifDriver ReadBuildInfo rs = Panic).
Proof.
  unfold buildSarifDriver. destruct ReadBuildInfo as [[|c v]|]; simpl.
  - by right.
  - left. split; [done|]. eauto.
  - left. split; [done|]. eauto.
Qed.

(** A finding with a text that is read as a number and denotes none makes
    the conversion fail with a parse error. *)
Lemma convert_fails_on_text (rootPaths : list string) (data : reportInfo)
    (issue : gosec.Issue) (text : string) :
  issue ∈ Issues data -> text ∈ parsed_texts issue -> ~ valid_int text ->
  exists err, convert rootPaths data = Fail err /\ Func err = "Atoi".
Proof.
  intros Hin Htext Hbad.
  pose proof (loop_outcome cwe_Get Score_String rootPaths (Issues data)
                registry_init) as Hloop.
  unfold convertToSarifReport.
  destruct (convert_issues cwe_Get Score_String rootPaths registry_init
              (Issues data)) as [st|e|]; simpl.
  - exfalso. apply Hbad.
    pose proof (proj1 (Forall_forall _ _) Hloop issue Hin) as Hok.
    apply parseSarifLocation_Ok_iff in Hok.
    by apply (proj1 (Forall_forall _ _) Hok).
  - exists e. split; [done|].
    destruct Hloop as (pre & bad & post & _ & _ & Hfail).
    destruct (parseSarifLocation_cases bad rootPaths)
      as [(loc & Hl & _)|(e' & He' & Hf & _)]; congruence.
  - exfalso. destruct Hloop as (bad & _ & Hpanic).
    destruct (parseSarifLocation_cases bad rootPaths)
      as [(loc & Hl & _)|(e' & He' & _)]; congruence.
Qed.

(** C4, as the code has it. The conversion returns an error exactly when,
    for some finding, one of the texts that are read as numbers (the first
    piece of the line text, the second piece when there is one, the column
    text) is not the decimal text of a machine integer. It then returns no
    document, and the error is the parse error of the first such finding in
    input order, as the location parser produced it. The conversion returns
    a document exactly when all these texts are valid and the build
    information, when present, has a non-empty version. *)
Theorem convertToSarifReport_parse_error (rootPaths : list string)
    (data : reportInfo) :
  ((exists e, convert rootPaths data = Fail e) <->
   (exists issue text,
      issue ∈ Issues data /\ text ∈ parsed_texts issue /\ ~ valid_int text))
  /\
  (forall e : NumError,
     convert rootPaths data = Fail e ->
     ret_value (convert rootPaths data) = None /\
     ret_error (convert rootPaths data) = Some e /\
     exists pre issue post,
       Issues data = pre ++ issue :: post /\
       Forall (fun i => Forall valid_int (parsed_texts i)) pre /\
       parseSarifLocation issue rootPaths = Fail e /\
       Func e = "Atoi" /\ Num e ∈ parsed_texts issue /\
       ~ valid_int (Num e))
  /\
  ((exists doc, convert rootPaths data = Ok doc) <->
   Forall (fun i => Forall valid_int (parsed_texts i)) (Issues data) /\
   ReadBuildInfo <> Some "").
Proof.
  pose proof (loop_outcome cwe_Get Score_String rootPaths (Issues data)
                registry_init) as Hloop.
  unfold convertToSarifReport.
  destruct (convert_issues cwe_Get Score_String rootPaths registry_init
              (Issues data)) as [st|e|]; simpl.
  - assert (Hvalid :
      Forall (fun i => Forall valid_int (parsed_texts i)) (Issues data)).
    { eapply Forall_impl; [exact Hloop|]. intros i Hi.
      by apply (parseSarifLocation_Ok_iff i rootPaths). }
    assert (Hnone :
      ~ exists issue text,
          issue ∈ Issues data /\ text ∈ parsed_texts issue /\
          ~ valid_int text).
    { intros (issue & text & Hin & Htext & Hbad). apply Hbad.
      pose proof (proj1 (Forall_forall _ _) Hvalid issue Hin) as Hi.
      by apply (proj1 (Forall_forall _ _) Hi). }
    destruct (buildSarifDriver_outcome (rules st))
      as [(Hinfo & driver & ->)|(Hinfo & ->)]; simpl.
    + split; [split; [by intros [e [=]]|by intros ?%Hnone]|].
      split; [by intros e [=]|]. split; [done|]. intros _. eauto.
    + split; [split; [by intros [e [=]]|by intros ?%Hnone]|].
      split; [by intros e [=]|]. split; [by intros [doc [=]]|].
      by intros [_ ?].
  - destruct Hloop as (pre & issue & post & Hsplit & Hpre & Hbad).
    destruct (parseSarifLocation_cases issue rootPaths)
      as [(loc & Hl & _)|(e' & He' & Hf & Hn & Hv)]; [congruence|].
    assert (e' = e) as -> by congruence.
    split; [split; [intros _|by eauto]|].
    { exists issue, (Num e). split; [|done]. rewrite Hsplit.
      apply elem_of_app. right. apply elem_of_cons. by left. }
    split.
    { intros e0 [= <-]. do 2 (split; [done|]).
      exists pre, issue, post. split; [done|]. split; [|done].
      eapply Forall_impl; [exact Hpre|]. intros i Hi.
      by apply (parseSarifLocation_Ok_iff i rootPaths). }
    split; [by intros [doc [=]]|]. intros [Hall _]. exfalso. apply Hv.
    rewrite Hsplit in Hall. apply Forall_app in Hall as [_ Hall].
    inversion Hall as [|? ? Hi _]; subst.
    by apply (proj1 (Forall_forall _ _) Hi).
  - exfalso. destruct Hloop as (issue & _ & Hpanic).
    destruct (parseSarifLocation_cases issue rootPaths)
      as [(loc & Hl & _)|(e' & He' & _)]; congruence.
Qed.

(** ** Location parsing *)

(** C6. The line text is split at every dash. The first piece is the start
    line; the second piece, when there is one, is the end line, and otherwise
    the end line is the start line. A successful parse means that each piece
    used is the decimal text of a non-negative integer and the column text
    that of an integer; the column is stored as both start and end column.
    When one of the texts used denotes no integer the parse fails with the
    parse error of that text, it never panics, and the conversion of any
    report that holds the finding fails with a parse error. *)
Theorem parseSarifLocation_region (issue : gosec.Issue)
    (rootPaths : list string) :
  exists (first : string) (rest : list string),
    line_segments issue = first :: rest /\
    strings.Join (first :: rest) "-" = gosec.Line issue /\
    Forall (fun piece => strings.contains_byte "-" piece = false)
      (first :: rest) /\
    match parseSarifLocation issue rootPaths with
    | Ok loc =>
        exists startLine endLine col : Z,
          int_text first startLine /\ 0 <= startLine /\
          match rest with
          | second :: _ => int_text second endLine /\ 0 <= endLine
          | [] => endLine = startLine
          end /\
          int_text (gosec.Col issue) col /\
          location_region loc =
            {| sarif.StartLine := startLine; sarif.EndLine := endLine;
               sarif.StartColumn := col; sarif.EndColumn := col |}
    | Fail err =>
        Func err = "Atoi" /\ Num err ∈ parsed_texts issue /\
        ~ valid_int (Num err)
    | Panic => False
    end /\
    ((exists text, text ∈ parsed_texts issue /\ ~ valid_int text) ->
     (exists err, parseSarifLocation issue rootPaths = Fail err) /\
     forall data : reportInfo,
       issue ∈ Issues data ->
       exists err, convert rootPaths data = Fail err /\ Func err = "Atoi").
Proof.
  assert (Hfail :
    (exists text, text ∈ parsed_texts issue /\ ~ valid_int text) ->
    (exists err, parseSarifLocation issue rootPaths = Fail err) /\
    forall data : reportInfo,
      issue ∈ Issues data ->
      exists err, convert rootPaths data = Fail err /\ Func err = "Atoi").
  { intros (text & Htext & Hbad). split.
    - destruct (parseSarifLocation_cases issue rootPaths)
        as [(loc & _ & Hall)|(err & He & _)]; [|by eauto].
      exfalso. apply Hbad. by apply (proj1 (Forall_forall _ _) Hall).
    - intros data Hin.
      by apply (convert_fails_on_text rootPaths data issue text). }
  pose proof (Join_Split (gosec.Line issue) "-") as HJ.
  pose proof (Split_no_sep (gosec.Line issue) "-") as HF.
  assert (Htexts : parsed_texts issue
                   = take 2 (strings.Split (gosec.Line issue) "-")
                       ++ [gosec.Col issue]) by done.
  destruct (Split_cons (gosec.Line issue) "-") as (first & rest & E).
  exists first, rest. unfold line_segments. rewrite <- E.
  do 3 (split; [done|]). split; [|exact Hfail]. clear Hfail.
  rewrite Htexts. clear Htexts. unfold parseSarifLocation. rewrite E in *.
  change ((first :: rest) !! 0%nat) with (Some first).
  change ((first :: rest) !! 1%nat) with (rest !! 0%nat).
  inversion HF as [|? ? Hfirst Hrest]; subst.
  destruct (Atoi_cases first) as [(s & Hs & Ts)|(e & He & Hf & Hn & Hv)].
  2:{ rewrite He. simpl. rewrite Hf, Hn. split; [done|]. split; [|done].
      destruct rest; simpl; set_solver. }
  rewrite Hs. simpl ret_bind.
  pose proof (int_text_no_dash_nonneg _ _ Hfirst Ts) as Hs0.
  destruct rest as [|second rest'].
  - simpl. destruct (Atoi_cases (gosec.Col issue))
      as [(c & Hc & Tc)|(e & He & Hf & Hn & Hv)].
    + rewrite Hc. simpl. by exists s, s, c.
    + rewrite He. simpl. rewrite Hf, Hn. split; [done|].
      split; [set_solver|done].
  - simpl. inversion Hrest as [|? ? Hsecond _]; subst.
    destruct (Atoi_cases second) as [(e & He & Te)|(e & He & Hf & Hn & Hv)].
    2:{ rewrite He. simpl. rewrite Hf, Hn. split; [done|].
        split; [set_solver|done]. }
    rewrite He. simpl.
    pose proof (int_text_no_dash_nonneg _ _ Hsecond Te) as He0.
    destruct (Atoi_cases (gosec.Col issue))
      as [(c & Hc & Tc)|(e' & He' & Hf & Hn & Hv)].
    + rewrite Hc. simpl. by exists s, e, c.
    + rewrite He'. simpl. rewrite Hf, Hn. split; [done|].
      split; [set_solver|done].
Qed.

End ConverterClaims.

(** ** Determinism *)

(** The catalog and the score names enter an iteration only through the
    entries of the finding at hand. *)
Lemma convert_issue_ext (Get1 Get2 : string -> cwe.Weakness)
    (Names1 Names2 : gosec.Score -> string) (rootPaths : list string)
    (st : registry) (issue : gosec.Issue) :
  Get1 (cwe_id issue) = Get2 (cwe_id issue) ->
  Names1 (gosec.Severity issue) = Names2 (gosec.Severity issue) ->
  Names1 (gosec.Confidence issue) = Names2 (gosec.Confidence issue) ->
  convert_issue Get1 Names1 rootPaths st issue
  = convert_issue Get2 Names2 rootPaths st issue.
Proof.
  unfold cwe_id, convert_issue, parseSarifRule. intros -> -> ->. reflexivity.
Qed.

Lemma convert_issues_ext (Get1 Get2 : string -> cwe.Weakness)
    (Names1 Names2 : gosec.Score -> string) (rootPaths : list string)
    (issues : list gosec.Issue) :
  Forall (fun issue =>
            Get1 (cwe_id issue) = Get2 (cwe_id issue) /\
            Names1 (gosec.Severity issue) = Names2 (gosec.Severity issue) /\
            Names1 (gosec.Confidence issue) = Names2 (gosec.Confidence issue))
    issues ->
  forall st,
    convert_issues Get1 Names1 rootPaths st issues
    = convert_issues Get2 Names2 rootPaths st issues.
Proof.
  induction 1 as [|issue rest (Hg & Hs & Hc) _ IH]; intros st; simpl.
  - done.
  - rewrite (convert_issue_ext Get1 Get2 Names1 Names2 _ _ _ Hg Hs Hc).
    destruct (convert_issue Get2 Names2 rootPaths st issue); simpl;
      [apply IH|done..].
Qed.

(** C9. Two runs of the conversion on the same findings and roots return
    the same outcome, and so structurally identical documents, whenever
    their surroundings agree on what the findings refer to: the catalog
    entries of the findings' weaknesses, the names of their severities and
    confidences, and the build information. Nothing else enters the
    document. Its content-derived identifiers are values of [uuid3], the
    version-3 UUID of a name under the nil namespace: the taxonomy's and the
    tool's reference to it carry [uuid3 "CWE"], a constant, every taxon that
    of its name, and every rule's relationship target that of the name of
    the weakness that the catalog gives for some finding. *)
Theorem convertToSarifReport_deterministic
    (Get1 Get2 : string -> cwe.Weakness)
    (Names1 Names2 : gosec.Score -> string) (info : option string)
    (rootPaths : list string) (data : reportInfo) :
  Forall (fun issue =>
            Get1 (cwe_id issue) = Get2 (cwe_id issue) /\
            Names1 (gosec.Severity issue) = Names2 (gosec.Severity issue) /\
            Names1 (gosec.Confidence issue) = Names2 (gosec.Confidence issue))
    (Issues data) ->
  convertToSarifReport Get1 Names1 info rootPaths data
  = convertToSarifReport Get2 Names2 info rootPaths data /\
  (forall name : string,
     uuid3 name = uuid.String (uuid.NewMD5 uuid.Nil (uuid.bytes name))) /\
  uuid3 "CWE" = "f2856fc0-85b7-373f-83e7-6f8582243547" /\
  forall doc : sarif.Report,
    convertToSarifReport Get1 Names1 info rootPaths data = Ok doc ->
    exists run taxonomy,
      sarif.Runs doc = [run] /\
      sarif.Taxonomies run = [taxonomy] /\
      sarif.tc_Guid taxonomy = uuid3 "CWE" /\
      Forall (fun ref => sarif.tcr_Guid ref = uuid3 (sarif.tcr_Name ref))
        (sarif.tc_SupportedTaxonomies (sarif.Driver (sarif.run_Tool run))) /\
      Forall (fun taxon => sarif.rd_Guid taxon = uuid3 (sarif.rd_Name taxon))
        (sarif.tc_Taxa taxonomy) /\
      Forall (fun rule =>
                Forall (fun rel =>
                          exists issue,
                            issue ∈ Issues data /\
                            sarif.rdr_Guid (sarif.Target rel)
                            = uuid3 (cwe.Name (Get1 (cwe_id issue))))
                  (sarif.rd_Relationships rule))
        (run_rules run).
Proof.
  intros Hagree. split.
  { unfold convertToSarifReport.
    by rewrite (convert_issues_ext Get1 Get2 Names1 Names2 _ _ Hagree). }
  split; [done|]. split; [by vm_compute|].
  intros doc Hdoc.
  destruct (convert_taxa _ _ _ _ _ _ Hdoc) as (run & tx & Hrun & Htx & Htaxa).
  destruct (convert_rules _ _ _ _ _ _ Hdoc) as (run' & Hrun' & Hrules).
  assert (run' = run) as -> by congruence.
  destruct (convert_Ok_run _ _ _ _ _ _ Hdoc)
    as (st & run' & tx' & _ & Hrun'' & Htx' & _ & _ & _ & Hguid & Hsup).
  assert (run' = run) as -> by congruence.
  assert (tx' = tx) as -> by congruence.
  exists run, tx. do 3 (split; [done|]). split.
  { rewrite Hsup. by repeat constructor. }
  split.
  { rewrite Htaxa. apply Forall_fmap, Forall_true. by intros issue. }
  rewrite Hrules. apply Forall_fmap, Forall_forall. intros issue Hissue.
  simpl. repeat constructor. exists issue. split; [|done].
  eapply elem_of_sublist; [done|apply first_occurrences_sublist].
Qed.

(** ** The theorems at the example findings *)

Lemma example_length : Z.of_nat (length (Issues example_data)) <= int_max.
Proof. unfold int_max. simpl. lia. Qed.

Lemma example_locations :
  Forall (fun issue =>
            exists loc, parseSarifLocation issue example_roots = Ok loc)
    (Issues example_data).
Proof. repeat constructor; eexists; reflexivity. Qed.

Lemma convertToSarifReport_rule_index_witness :
  exists doc run,
    convertToSarifReport example_Get example_Score_String None example_roots
      example_data = Ok doc /\
    sarif.Runs doc = [run] /\
    sarif.rd_Id <$> run_rules run = ["G204"; "G101"; "G304"] /\
    sarif.RuleIndex <$> sarif.Results run = [0; 1; 0; 2].
Proof.
  destruct (convertToSarifReport_rule_index example_Get example_Score_String
              None example_roots example_data example_length
              example_locations ltac:(discriminate))
    as (doc & run & H & Hrun & Hids & _).
  exists doc, run. do 2 (split; [done|]). split; [by rewrite Hids|].
  vm_compute in H. injection H as <-. injection Hrun as <-. reflexivity.
Defined.

(** Two parses: line ["10-15"] with column ["1"], and a line that is no
    number. *)
Lemma parseSarifLocation_region_witness :
  (exists loc,
     parseSarifLocation (example_issue "G101" "798" "" "/p/main.go" "10-15" "1" "")
       [] = Ok loc /\
     location_region loc =
       {| sarif.StartLine := 10; sarif.EndLine := 15;
          sarif.StartColumn := 1; sarif.EndColumn := 1 |}) /\
  (exists err,
     parseSarifLocation (example_issue "G101" "798" "" "/p/main.go" "x" "1" "")
       [] = Fail err).
Proof.
  split.
  - eexists. split; reflexivity.
  - destruct (parseSarifLocation_region example_Get example_Score_String
                None
                (example_issue "G101" "798" "" "/p/main.go" "x" "1" "") [])
      as (first & rest & _ & _ & _ & _ & H).
    apply H. exists "x". split; [vm_compute; set_solver|].
    intros [z Hz]. apply Atoi_Ok_iff in Hz. vm_compute in Hz. discriminate.
Defined.

Lemma convertToSarifReport_taxa_first_seen_witness :
  exists doc run taxonomy,
    convertToSarifReport example_Get example_Score_String None example_roots
      example_data = Ok doc /\
    sarif.Runs doc = [run] /\
    sarif.Taxonomies run = [taxonomy] /\
    sarif.rd_HelpUri <$> sarif.tc_Taxa taxonomy =
      [ "https://cwe.mitre.org/data/definitions/78.html";
        "https://cwe.mitre.org/data/definitions/798.html";
        "https://cwe.mitre.org/data/definitions/22.html" ].
Proof.
  destruct (convertToSarifReport example_Get example_Score_String None
              example_roots example_data) as [doc| |] eqn:H;
    [|vm_compute in H; discriminate H..].
  destruct (convertToSarifReport_taxa_first_seen example_Get
              example_Score_String None example_roots example_data doc H)
    as (run & tx & Hrun & Htx & _ & Huri & _).
  exists doc, run, tx. do 3 (split; [done|]). by rewrite Huri.
Defined.

Lemma convertToSarifReport_rule_first_seen_witness :
  exists doc run d,
    convertToSarifReport example_Get example_Score_String None example_roots
      example_data = Ok doc /\
    sarif.Runs doc = [run] /\
    d ∈ run_rules run /\
    sarif.rd_Id d = "G204" /\
    sarif.rd_Relationships d =
      [ buildSarifReportingDescriptorRelationship (example_Get "78") ].
Proof.
  destruct (convertToSarifReport example_Get example_Score_String None
              example_roots example_data) as [doc| |] eqn:H;
    [|vm_compute in H; discriminate H..].
  destruct (convertToSarifReport_rule_first_seen example_Get
              example_Score_String None example_roots example_data doc
              []
              [ example_issue "G101" "798"
                  "https://cwe.mitre.org/data/definitions/798.html"
                  "/home/u/proj/main.go" "10-15" "1" "Hard-coded credentials" ]
              [ example_issue "G304" "22" "https://example.org/second-url"
                  "/home/u/proj/pkg/other.go" "8" "2" "File inclusion" ]
              (example_issue "G204" "78"
                 "https://cwe.mitre.org/data/definitions/78.html"
                 "/home/u/proj/pkg/file.go" "42" "3" "Subprocess launched")
              (example_issue "G204" "22"
                 "https://cwe.mitre.org/data/definitions/22.html"
                 "/home/u/proj/pkg/other.go" "7" "9"
                 "Subprocess launched again")
              H eq_refl (not_elem_of_nil _) eq_refl)
    as (run & d & Hrun & _ & _ & Hd & _ & Hfirst & Hrel).
  exists doc, run, d. do 3 (split; [done|]). split; [by rewrite Hfirst|done].
Defined.

Lemma convertToSarifReport_relationship_target_witness :
  exists doc run taxonomy,
    convertToSarifReport example_Get example_Score_String None example_roots
      example_data = Ok doc /\
    sarif.Runs doc = [run] /\
    sarif.Taxonomies run = [taxonomy] /\
    forall rule : sarif.ReportingDescriptor,
      rule ∈ run_rules run ->
      exists rel taxon,
        sarif.rd_Relationships rule = [rel] /\
        taxon ∈ sarif.tc_Taxa taxonomy /\
        sarif.rd_Id taxon = sarif.rdr_Id (sarif.Target rel) /\
        sarif.rd_Guid taxon = sarif.rdr_Guid (sarif.Target rel).
Proof.
  destruct (convertToSarifReport example_Get example_Score_String None
              example_roots example_data) as [doc| |] eqn:H;
    [|vm_compute in H; discriminate H..].
  destruct (convertToSarifReport_relationship_target example_Get
              example_Score_String None example_roots example_data doc H)
    as (run & tx & Hrun & Htx & Hrules & _).
  exists doc, run, tx. do 3 (split; [done|]). intros rule Hrule.
  destruct (Hrules rule Hrule) as (rel & taxon & ? & ? & ? & ? & _).
  by exists rel, taxon.
Defined.

Lemma convertToSarifReport_deterministic_witness :
  convertToSarifReport example_Get example_Score_String None example_roots
    example_data
  = convertToSarifReport other_Get other_Score_String None example_roots
      example_data /\
  other_Get "999" <> example_Get "999".
Proof.
  split; [|discriminate].
  refine (proj1 (convertToSarifReport_deterministic example_Get other_Get
                   example_Score_String other_Score_String None example_roots
                   example_data _)).
  repeat constructor.
Defined.

(** C4 with every piece of the line text in place of the first two, and
    without the condition on the build information, does not hold. The line
    text ["1-2-x"] has the piece ["x"], which is no integer, and the
    conversion succeeds: only the first two pieces are read. And on the
    empty finding list, where every line and column text parses, the
    conversion returns neither a document nor an error when the build
    information has an empty version. *)
Lemma convertToSarifReport_parse_error_counterexample :
  (exists doc,
     convertToSarifReport example_Get example_Score_String None []
       {| Issues := [example_issue "G204" "78" "" "/p/f.go" "1-2-x" "3" ""] |}
     = Ok doc) /\
  "x" ∈ line_segments (example_issue "G204" "78" "" "/p/f.go" "1-2-x" "3" "")
  /\ ~ valid_int "x" /\
  convertToSarifReport example_Get example_Score_String (Some "") []
    {| Issues := [] |} = Panic.
Proof.
  split; [eexists; vm_compute; reflexivity|].
  split; [vm_compute; set_solver|].
  split; [|reflexivity].
  intros [z Hz]. apply Atoi_Ok_iff in Hz. vm_compute in Hz. discriminate.
Qed.

(** * Further properties of the code *)

(** ** Prefixes and occurrences *)

Lemma length_append (a b : string) :
  String.length (a +:+ b) = (String.length a + String.length b)%nat.
Proof.
  induction a as [|c r IH]; [done|].
  change (String c r +:+ b) with (String c (r +:+ b)). simpl. by rewrite IH.
Qed.

Lemma prefix_split (p s : string) :
  String.prefix p s = true ->
  s = p +:+ strings.drop (String.length p) s.
Proof.
  revert s. induction p as [|c r IH]; intros s H; [done|].
  destruct s as [|d s']; [done|]. simpl in H.
  destruct (ascii_dec c d) as [->|]; [|done].
  change (String d r +:+ ?x) with (String d (r +:+ x)). simpl.
  f_equal. by apply IH.
Qed.

Lemma prefix_occurs (old s : string) :
  String.prefix old s = true -> occurs old s.
Proof. intros H. exists "", (strings.drop (String.length old) s). by apply prefix_split. Qed.

Lemma occurs_cons_inv (old : string) (c : ascii) (r : string) :
  occurs old (String c r) ->
  String.prefix old (String c r) = true \/ occurs old r.
Proof.
  intros ([|d pre] & post & H).
  - left. change ("" +:+ ?x) with x in H. rewrite H. apply prefix_app.
  - right. change (String d pre +:+ ?x) with (String d (pre +:+ x)) in H.
    injection H as _ ->. by exists pre, post.
Qed.

(** [strings.Replace] with an empty replacement either finds no occurrence
    and returns the string as it is, or cuts the first occurrence out. *)
Lemma Replace1_cases (s old : string) :
  old <> "" ->
  (strings.Replace1 s old "" = s /\ ~ occurs old s) \/
  (exists pre post,
     s = pre +:+ old +:+ post /\ strings.Replace1 s old "" = pre +:+ post /\
     ~ occurs old pre).
Proof.
  intros Hold.
  assert (Hnil : ~ occurs old "").
  { intros (pre & post & H). destruct pre; [|done]. by destruct old. }
  induction s as [|c r IH].
  - left. destruct old as [|a old']; [done|]. by split.
  - unfold strings.Replace1; fold strings.Replace1.
    destruct (String.prefix old (String c r)) eqn:Hp.
    + right. exists "", (strings.drop (String.length old) (String c r)).
      split; [by apply prefix_split|]. by split.
    + destruct IH as [[Heq Hno]|(pre & post & Hs & Hr & Hno)].
      * left. rewrite Heq. split; [done|].
        intros [Hpre|Hocc]%occurs_cons_inv; [congruence|done].
      * right. exists (String c pre), post. rewrite Hr.
        split; [by rewrite Hs|]. split; [done|].
        intros [Hpre|Hocc]%occurs_cons_inv; [|done].
        apply prefix_split in Hpre.
        assert (String.prefix old (String c r) = true); [|congruence].
        rewrite Hs.
        change (String c (pre +:+ old +:+ post))
          with (String c pre +:+ (old +:+ post)).
        rewrite Hpre, append_assoc. apply prefix_app.
Qed.

Lemma occurs_length (old s : string) :
  occurs old s -> (String.length old <= String.length s)%nat.
Proof. intros (pre & post & ->). rewrite !length_append. lia. Qed.

Lemma Replace1_unchanged_iff (s old : string) :
  old <> "" -> (strings.Replace1 s old "" = s <-> ~ occurs old s).
Proof.
  intros Hold.
  destruct (Replace1_cases s old Hold) as [[Heq Hno]|(pre & post & Hs & Hr & _)].
  - tauto.
  - split.
    + intros Heq. exfalso. rewrite Hr in Heq.
      apply (f_equal String.length) in Heq. rewrite Hs in Heq.
      rewrite !length_append in Heq.
      destruct old; [done|]. simpl in Heq. lia.
    + intros Hno. exfalso. apply Hno. by exists pre, post.
Qed.

Lemma append_slash_nonempty (root : string) : root +:+ "/" <> "".
Proof. by destruct root. Qed.

Lemma last_matching_root_Some (file root : string) (rootPaths : list string) :
  last_matching_root file rootPaths = Some root ->
  root ∈ rootPaths /\ strings.HasPrefix file root = true.
Proof.
  induction rootPaths as [|r rest IH]; simpl; [done|].
  destruct (last_matching_root file rest) as [later|].
  - intros [= ->]. destruct (IH eq_refl) as [Hin Hp]. split; [|done].
    apply elem_of_cons. by right.
  - destruct (strings.HasPrefix file r) eqn:Hp; [|done].
    intros [= ->]. split; [|done]. apply elem_of_cons. by left.
Qed.

Lemma last_matching_root_None (file : string) (rootPaths : list string) :
  last_matching_root file rootPaths = None ->
  Forall (fun r => strings.HasPrefix file r = false) rootPaths.
Proof.
  induction rootPaths as [|r rest IH]; simpl; [by constructor|].
  destruct (last_matching_root file rest); [done|].
  destruct (strings.HasPrefix file r) eqn:Hp; [done|].
  intros _. constructor; [done|]. by apply IH.
Qed.

(** ** The shape of the URI *)

(** X1. The URI of a parsed location is obtained from the file path by
    removing at most one block of bytes. Either no root is a prefix of the
    path and the URI is empty; or some root of the list is a prefix and the
    URI is the path itself, when the root followed by a slash does not
    occur in it, or the path with the first occurrence of the root followed
    by a slash cut out. The URI is never longer than the path. *)
Theorem parseSarifLocation_uri_shape (issue : gosec.Issue)
    (rootPaths : list string) (loc : sarif.Location) :
  parseSarifLocation issue rootPaths = Ok loc ->
  ((location_uri loc = "" /\
    Forall (fun r => strings.HasPrefix (gosec.File issue) r = false) rootPaths)
   \/
   exists root,
     root ∈ rootPaths /\ strings.HasPrefix (gosec.File issue) root = true /\
     ((location_uri loc = gosec.File issue /\
       ~ occurs (root +:+ "/") (gosec.File issue)) \/
      exists pre post,
        gosec.File issue = pre +:+ (root +:+ "/") +:+ post /\
        location_uri loc = pre +:+ post /\
        ~ occurs (root +:+ "/") pre))
  /\ (String.length (location_uri loc)
      <= String.length (gosec.File issue))%nat.
Proof.
  intros Hloc. apply parseSarifLocation_Ok_inv in Hloc as [-> _].
  rewrite relativize_last.
  destruct (last_matching_root (gosec.File issue) rootPaths) as [root|] eqn:Hl.
  - apply last_matching_root_Some in Hl as [Hin Hp].
    destruct (Replace1_cases (gosec.File issue) (root +:+ "/")
                (append_slash_nonempty root))
      as [[Heq Hno]|(pre & post & Hs & Hr & Hno)].
    + rewrite Heq. split; [|done]. right. exists root. by eauto.
    + rewrite Hr. split.
      * right. exists root. do 2 (split; [done|]). right. by exists pre, post.
      * rewrite Hs, !length_append. lia.
  - apply last_matching_root_None in Hl. split; [by left|]. simpl. lia.
Qed.

(** X2. When the last root that is a prefix of the file path is the path
    itself, or is written with a trailing slash while the path has no two
    slashes in a row, nothing is removed: the URI is the whole path. *)
Theorem parseSarifLocation_uri_whole_path (issue : gosec.Issue)
    (earlier later : list string) (rootPath : string) (loc : sarif.Location) :
  strings.HasPrefix (gosec.File issue) rootPath = true ->
  Forall (fun r => strings.HasPrefix (gosec.File issue) r = false) later ->
  (rootPath = gosec.File issue \/
   ((exists stem, rootPath = stem +:+ "/") /\
    ~ occurs "//" (gosec.File issue))) ->
  parseSarifLocation issue (earlier ++ rootPath :: later) = Ok loc ->
  location_uri loc = gosec.File issue.
Proof.
  intros Hroot Hlater Hedge Hloc.
  apply parseSarifLocation_Ok_inv in Hloc as [-> _].
  rewrite relativize_last, (last_matching_root_app _ _ _ _ Hroot Hlater).
  apply Replace1_unchanged_iff; [apply append_slash_nonempty|].
  destruct Hedge as [->|[[stem ->] Hno]].
  - intros Hocc%occurs_length. rewrite length_append in Hocc. simpl in Hocc.
    lia.
  - intros (pre & post & H). apply Hno.
    exists (pre +:+ stem), post. rewrite H.
    rewrite !append_assoc. reflexivity.
Qed.

(** ** The line text *)

(** X3. The parse reads the line text only through its first two pieces:
    two findings with the same file and column text whose line texts agree
    up to a second dash have the same parse, whatever follows that dash. *)
Theorem parseSarifLocation_first_two_pieces (issue1 issue2 : gosec.Issue)
    (rootPaths : list string) :
  take 2 (line_segments issue1) = take 2 (line_segments issue2) ->
  gosec.Col issue1 = gosec.Col issue2 ->
  gosec.File issue1 = gosec.File issue2 ->
  parseSarifLocation issue1 rootPaths = parseSarifLocation issue2 rootPaths.
Proof.
  unfold line_segments, parseSarifLocation. intros Hlines -> ->.
  destruct (Split_cons (gosec.Line issue1) "-") as (a & r1 & E1).
  destruct (Split_cons (gosec.Line issue2) "-") as (b & r2 & E2).
  rewrite E1, E2 in *.
  change (a :: take 1 r1 = b :: take 1 r2) in Hlines.
  injection Hlines as -> Hrest.
  change ((b :: ?r) !! 0%nat) with (Some b).
  change ((b :: r1) !! 1%nat) with (r1 !! 0%nat).
  change ((b :: r2) !! 1%nat) with (r2 !! 0%nat).
  assert (r1 !! 0%nat = r2 !! 0%nat) as ->; [|done].
  destruct r1, r2; [done| | |]; cbn in Hrest; try discriminate Hrest.
  simpl. congruence.
Qed.

(** What a successful parse has read. *)
Lemma parseSarifLocation_Ok_numbers (issue : gosec.Issue)
    (rootPaths : list string) (loc : sarif.Location) :
  parseSarifLocation issue rootPaths = Ok loc ->
  exists first rest startLine endLine col,
    strings.Split (gosec.Line issue) "-" = first :: rest /\
    strconv.Atoi first = Ok startLine /\
    match rest with
    | second :: _ => strconv.Atoi second = Ok endLine
    | [] => endLine = startLine
    end /\
    strconv.Atoi (gosec.Col issue) = Ok col /\
    location_region loc = parseSarifRegion startLine endLine col.
Proof.
  unfold parseSarifLocation.
  destruct (Split_cons (gosec.Line issue) "-") as (first & rest & ->).
  change ((first :: rest) !! 0%nat) with (Some first).
  change ((first :: rest) !! 1%nat) with (rest !! 0%nat).
  cbv beta iota zeta.
  destruct (strconv.Atoi first) as [s| |] eqn:Hs; simpl; [|done..].
  destruct rest as [|second rest']; simpl.
  - destruct (strconv.Atoi (gosec.Col issue)) as [c| |] eqn:Hc; simpl;
      [|done..].
    intros [= <-]. exists first, [], s, s, c. by repeat split.
  - destruct (strconv.Atoi second) as [e| |] eqn:He; simpl; [|done..].
    destruct (strconv.Atoi (gosec.Col issue)) as [c| |] eqn:Hc; simpl;
      [|done..].
    intros [= <-]. exists first, (second :: rest'), s, e, c.
    by repeat split.
Qed.

Lemma int_text_range (s : string) (z : Z) :
  int_text s z -> int_min <= z <= int_max.
Proof. by intros (sign & body & _ & _ & _ & _ & _ & H). Qed.

(** The numbers of a parsed region: lines between zero and the largest
    [int], the column an [int], stored twice. *)
Lemma parseSarifLocation_region_range (issue : gosec.Issue)
    (rootPaths : list string) (loc : sarif.Location) :
  parseSarifLocation issue rootPaths = Ok loc ->
  0 <= sarif.StartLine (location_region loc) <= int_max /\
  0 <= sarif.EndLine (location_region loc) <= int_max /\
  int_min <= sarif.StartColumn (location_region loc) <= int_max /\
  sarif.EndColumn (location_region loc)
  = sarif.StartColumn (location_region loc).
Proof.
  intros (first & rest & s & e & c & Hsplit & Hs & He & Hc & ->)
    %parseSarifLocation_Ok_numbers.
  pose proof (Split_no_sep (gosec.Line issue) "-") as Hno.
  rewrite Hsplit in Hno. inversion Hno as [|? ? Hfirst Hrest]; subst.
  apply Atoi_Ok_iff in Hs, Hc.
  pose proof (int_text_no_dash_nonneg _ _ Hfirst Hs).
  pose proof (int_text_range _ _ Hs). pose proof (int_text_range _ _ Hc).
  simpl. split; [lia|]. split; [|by split].
  destruct rest as [|second rest'].
  - subst e. lia.
  - inversion Hrest as [|? ? Hsecond _]; subst. apply Atoi_Ok_iff in He.
    pose proof (int_text_no_dash_nonneg _ _ Hsecond He).
    pose proof (int_text_range _ _ He). lia.
Qed.

(** ** Results, counts and the build information *)

Section DocumentProperties.

Variable cwe_Get : string -> cwe.Weakness.
Variable Score_String : gosec.Score -> string.
Variable ReadBuildInfo : option string.

Abbreviation step := (convert_issue cwe_Get Score_String).
Abbreviation loop := (convert_issues cwe_Get Score_String).
Abbreviation convert :=
  (convertToSarifReport cwe_Get Score_String ReadBuildInfo).

Abbreviation result_reports := (result_reports Score_String).

Lemma step_result (rootPaths : list string) (st st' : registry)
    (issue : gosec.Issue) :
  step rootPaths st issue = Ok st' ->
  exists res,
    results st' = results st ++ [res] /\ result_reports rootPaths issue res.
Proof.
  unfold convert_issue.
  destruct (weaknesses st !! gosec.ID (gosec.Cwe issue));
    destruct (rulesIndices st !! gosec.RuleID issue);
    destruct (parseSarifLocation issue rootPaths) as [loc| |] eqn:Hl;
    simpl; intros H; try discriminate H; injection H as <-; simpl.
  all: eexists; split; [done|]; split; [done|]; split; [done|].
  all: by exists loc.
Qed.

Lemma loop_result_contents (rootPaths : list string)
    (issues : list gosec.Issue) :
  forall st st',
    loop rootPaths st issues = Ok st' ->
    exists new,
      results st' = results st ++ new /\
      Forall2 (result_reports rootPaths) issues new.
Proof.
  induction issues as [|issue rest IH]; intros st st' H.
  - injection H as <-. exists []. by rewrite app_nil_r.
  - apply loop_cons_Ok in H as (st1 & H1 & Hrest).
    destruct (step_result _ _ _ _ H1) as (res & Hres & Hrep).
    destruct (IH _ _ Hrest) as (new & Hnew & Hall).
    exists (res :: new). rewrite Hnew, Hres, <- app_assoc.
    split; [done|]. by constructor.
Qed.

Lemma loop_app (rootPaths : list string) (l1 l2 : list gosec.Issue) :
  forall st,
    loop rootPaths st (l1 ++ l2) =
    (try st1 := loop rootPaths st l1 in loop rootPaths st1 l2).
Proof.
  induction l1 as [|issue rest IH]; intros st; simpl; [done|].
  destruct (step rootPaths st issue) as [st1| |]; simpl; [apply IH|done..].
Qed.

(** X4. In a returned document there is one result per finding, in the
    order of the findings. The result's level is the SARIF level of the
    finding's own severity, its message is the finding's text, and it has
    exactly one location, the parse of the finding's file, line and column
    against the roots. *)
Theorem convertToSarifReport_results (rootPaths : list string)
    (data : reportInfo) (doc : sarif.Report) :
  convert rootPaths data = Ok doc ->
  exists run,
    sarif.Runs doc = [run] /\
    length (sarif.Results run) = length (Issues data) /\
    Forall2
      (fun issue res =>
         sarif.res_Level res
         = getSarifLevel (Score_String (gosec.Severity issue)) /\
         sarif.res_Message res = {| sarif.msg_Text := gosec.What issue |} /\
         exists loc,
           parseSarifLocation issue rootPaths = Ok loc /\
           sarif.Locations res = [loc])
      (Issues data) (sarif.Results run).
Proof.
  intros (st & run & tx & Hloop & Hrun & _ & _ & _ & Hres & _)%convert_Ok_run.
  destruct (loop_result_contents _ _ _ _ Hloop) as (new & Hnew & Hall).
  simpl in Hnew. subst new. rewrite <- Hres in Hall.
  exists run. split; [done|]. split; [|exact Hall].
  symmetry. by eapply Forall2_length.
Qed.

(** X5. Every region of a returned document has a start line and an end
    line between zero and the largest [int], a start column that is an
    [int], possibly negative, and an end column equal to the start
    column. *)
Theorem convertToSarifReport_region_range (rootPaths : list string)
    (data : reportInfo) (doc : sarif.Report) :
  convert rootPaths data = Ok doc ->
  forall run res loc,
    run ∈ sarif.Runs doc -> res ∈ sarif.Results run ->
    loc ∈ sarif.Locations res ->
    0 <= sarif.StartLine (location_region loc) <= int_max /\
    0 <= sarif.EndLine (location_region loc) <= int_max /\
    int_min <= sarif.StartColumn (location_region loc) <= int_max /\
    sarif.EndColumn (location_region loc)
    = sarif.StartColumn (location_region loc).
Proof.
  intros (st & run & tx & Hloop & Hrun & _ & _ & _ & Hres & _)%convert_Ok_run.
  destruct (loop_result_contents _ _ _ _ Hloop) as (new & Hnew & Hall).
  simpl in Hnew. subst new. rewrite <- Hres in Hall.
  intros run' res loc Hin Hr Hl. rewrite Hrun in Hin.
  apply list_elem_of_singleton in Hin as ->.
  apply list_elem_of_lookup in Hr as [k Hk].
  destruct (Forall2_lookup_r _ _ _ _ _ Hall Hk)
    as (issue & _ & _ & _ & loc' & Hparse & Hlocs).
  rewrite Hlocs in Hl. apply list_elem_of_singleton in Hl as ->.
  by apply (parseSarifLocation_region_range issue rootPaths).
Qed.

(** The loop never panics, and fails exactly with the first location
    error. *)
Lemma loop_not_Panic (rootPaths : list string) (issues : list gosec.Issue)
    (st : registry) :
  loop rootPaths st issues <> Panic.
Proof.
  intros H.
  pose proof (loop_outcome cwe_Get Score_String rootPaths issues st) as Ho.
  rewrite H in Ho. destruct Ho as (bad & _ & Hbad).
  destruct (parseSarifLocation_cases bad rootPaths)
    as [(loc & Hl & _)|(e & He & _)]; congruence.
Qed.

(** X6. The tool version comes from the build information, read only after
    all findings are converted. Without build information the version is
    ["devel"]; with a non-empty version it is that version without its first
    byte; with an empty version the conversion panics. The panic arises
    exactly when every location parses and the version is empty, so a
    location error is reported even then. *)
Theorem convertToSarifReport_build_info (rootPaths : list string)
    (data : reportInfo) :
  (convert rootPaths data = Panic <->
   Forall (fun issue => Forall valid_int (parsed_texts issue)) (Issues data)
   /\ ReadBuildInfo = Some "") /\
  (forall doc,
     convert rootPaths data = Ok doc ->
     exists run,
       sarif.Runs doc = [run] /\
       sarif.tc_Name (sarif.Driver (sarif.run_Tool run)) = "gosec" /\
       sarif.tc_Version (sarif.Driver (sarif.run_Tool run)) =
         match ReadBuildInfo with
         | None => "devel"
         | Some version => strings.drop 1 version
         end).
Proof.
  split.
  - pose proof (loop_outcome cwe_Get Score_String rootPaths (Issues data)
                  registry_init) as Hloop.
    pose proof (loop_not_Panic rootPaths (Issues data) registry_init) as Hnp.
    unfold convertToSarifReport.
    destruct (convert_issues cwe_Get Score_String rootPaths registry_init
                (Issues data)) as [st|e|]; simpl; [| |done].
    + assert (Hvalid :
        Forall (fun i => Forall valid_int (parsed_texts i)) (Issues data)).
      { eapply Forall_impl; [exact Hloop|]. intros i Hi.
        by apply (parseSarifLocation_Ok_iff i rootPaths). }
      unfold buildSarifDriver. destruct ReadBuildInfo as [[|c v]|]; simpl.
      * by split.
      * split; [done|]. by intros [_ [=]].
      * split; [done|]. by intros [_ [=]].
    + split; [done|]. intros [Hall _]. exfalso.
      destruct Hloop as (pre & issue & post & Hsplit & _ & Hbad).
      rewrite Hsplit in Hall. apply Forall_app in Hall as [_ Hall].
      inversion Hall as [|? ? Hi _]; subst.
      apply (parseSarifLocation_Ok_iff issue rootPaths) in Hi as [loc Hl].
      congruence.
  - intros doc (st & driver & _ & Hdriver & _ & ->)%convert_Ok_inv.
    eexists. split; [reflexivity|]. simpl.
    unfold buildSarifDriver in Hdriver. destruct ReadBuildInfo as [[|c v]|];
      simpl in Hdriver; try discriminate Hdriver; by injection Hdriver as <-.
Qed.

Lemma first_occurrences_nil_iff {A : Type} (key : A -> string) (l : list A) :
  first_occurrences key l = [] <-> l = [].
Proof.
  split; [|by intros ->]. destruct l as [|x rest]; [done|].
  unfold first_occurrences. simpl.
  rewrite decide_False by set_solver. done.
Qed.

(** X7. A returned document has as many results as there are findings, and
    no more rules or taxa than findings. Its rule list is empty exactly
    when there is no finding, and so is its taxa list; the taxonomy group
    itself is always there. *)
Theorem convertToSarifReport_counts (rootPaths : list string)
    (data : reportInfo) (doc : sarif.Report) :
  convert rootPaths data = Ok doc ->
  exists run taxonomy,
    sarif.Runs doc = [run] /\
    sarif.Taxonomies run = [taxonomy] /\
    length (sarif.Results run) = length (Issues data) /\
    (length (run_rules run) <= length (Issues data))%nat /\
    (length (sarif.tc_Taxa taxonomy) <= length (Issues data))%nat /\
    (run_rules run = [] <-> Issues data = []) /\
    (sarif.tc_Taxa taxonomy = [] <-> Issues data = []).
Proof.
  intros Hdoc.
  destruct (convert_taxa _ _ _ _ _ _ Hdoc) as (run & tx & Hrun & Htx & Htaxa).
  destruct (convert_rules _ _ _ _ _ _ Hdoc) as (run' & Hrun' & Hrules).
  assert (run' = run) as -> by congruence.
  destruct (convert_Ok_run _ _ _ _ _ _ Hdoc)
    as (st & run' & _ & Hloop & Hrun'' & _ & _ & _ & Hres & _).
  assert (run' = run) as -> by congruence.
  destruct (loop_result_contents _ _ _ _ Hloop) as (new & Hnew & Hall).
  simpl in Hnew. subst new.
  exists run, tx. do 2 (split; [done|]). split.
  { rewrite Hres. symmetry. by eapply Forall2_length. }
  rewrite Hrules, Htaxa, !length_fmap. split.
  { apply sublist_length, first_occurrences_sublist. }
  split.
  { apply sublist_length, first_occurrences_sublist. }
  split.
  - rewrite <- (first_occurrences_nil_iff gosec.RuleID).
    split; [by intros ?%fmap_nil_inv|by intros ->].
  - rewrite <- (first_occurrences_nil_iff cwe_id).
    split; [by intros ?%fmap_nil_inv|by intros ->].
Qed.

Lemma loop_grows (rootPaths : list string) (issues : list gosec.Issue) :
  forall st st',
    loop rootPaths st issues = Ok st' ->
    results st `prefix_of` results st' /\
    rules st `prefix_of` rules st' /\
    taxa st `prefix_of` taxa st'.
Proof.
  induction issues as [|issue rest IH]; intros st st' H.
  - by injection H as <-.
  - apply loop_cons_Ok in H as (st1 & H1 & Hrest).
    destruct (IH _ _ Hrest) as (Hr & Hu & Ht).
    destruct (step_result _ _ _ _ H1) as (res & Hres & _).
    destruct (step_taxa _ _ _ _ _ _ H1) as (Htaxa & _).
    assert (Hrules : rules st `prefix_of` rules st1).
    { clear -H1. unfold convert_issue in H1.
      destruct (weaknesses st !! gosec.ID (gosec.Cwe issue));
        destruct (rulesIndices st !! gosec.RuleID issue);
        destruct (parseSarifLocation issue rootPaths);
        simpl in H1; try discriminate H1; injection H1 as <-; simpl;
        first [done | by eexists]. }
    split; [etrans; [|exact Hr]; rewrite Hres; by eexists|].
    split; [by etrans|].
    etrans; [|exact Ht]. rewrite Htaxa. by eexists.
Qed.

(** X8. Findings that follow only add to a document. If the conversion of
    a finding list returns a document, then so does the conversion of every
    initial part of the list, and the results, rules and taxa of that
    document are initial parts of the results, rules and taxa of the
    whole. *)
Theorem convertToSarifReport_initial_part (rootPaths : list string)
    (pre post : list gosec.Issue) (doc : sarif.Report) :
  convert rootPaths {| Issues := pre ++ post |} = Ok doc ->
  exists doc' run run' taxonomy taxonomy',
    convert rootPaths {| Issues := pre |} = Ok doc' /\
    sarif.Runs doc = [run] /\ sarif.Runs doc' = [run'] /\
    sarif.Taxonomies run = [taxonomy] /\
    sarif.Taxonomies run' = [taxonomy'] /\
    sarif.Results run' `prefix_of` sarif.Results run /\
    run_rules run' `prefix_of` run_rules run /\
    sarif.tc_Taxa taxonomy' `prefix_of` sarif.tc_Taxa taxonomy.
Proof.
  intros Hdoc.
  destruct (convert_Ok_run _ _ _ _ _ _ Hdoc)
    as (st & run & tx & Hloop & Hrun & Htx & Hrules & Htaxa & Hres & _).
  simpl in Hloop. rewrite loop_app in Hloop.
  destruct (loop rootPaths registry_init pre) as [st1| |] eqn:Hpre;
    simpl in Hloop; [|done..].
  destruct (loop_grows _ _ _ _ Hloop) as (Hr & Hu & Ht).
  assert (Hinfo : ReadBuildInfo <> Some "").
  { intros Hempty. unfold convertToSarifReport in Hdoc.
    destruct (convert_issues cwe_Get Score_String rootPaths registry_init
                (Issues {| Issues := pre ++ post |})); simpl in Hdoc;
      [|done..].
    unfold buildSarifDriver in Hdoc. by rewrite Hempty in Hdoc. }
  assert (Hdoc' : exists doc', convert rootPaths {| Issues := pre |} = Ok doc').
  { unfold convertToSarifReport. simpl. rewrite Hpre. simpl.
    unfold buildSarifDriver. destruct ReadBuildInfo as [[|c v]|]; simpl;
      [done|eauto..]. }
  destruct Hdoc' as [doc' Hdoc'].
  destruct (convert_Ok_run _ _ _ _ _ _ Hdoc')
    as (st1' & run' & tx' & Hloop' & Hrun' & Htx' & Hrules' & Htaxa' & Hres'
        & _).
  simpl in Hloop'. assert (st1' = st1) as -> by congruence.
  exists doc', run, run', tx, tx'. do 5 (split; [done|]).
  by rewrite Hres, Hres', Hrules, Hrules', Htaxa, Htaxa'.
Qed.

(** X9. A line text that is empty or starts with a dash has an empty first
    piece, so its parse fails with the syntax error of the empty text, and
    no report holding such a finding is converted: a negative line number
    cannot be written. *)
Theorem parseSarifLocation_empty_first_piece (issue : gosec.Issue)
    (rootPaths : list string) :
  (gosec.Line issue = "" \/ exists rest, gosec.Line issue = String "-" rest) ->
  parseSarifLocation issue rootPaths
  = Fail {| Func := "Atoi"; Num := ""; Err := ErrSyntax |} /\
  forall data : reportInfo,
    issue ∈ Issues data ->
    exists err, convert rootPaths data = Fail err /\ Func err = "Atoi".
Proof.
  intros Hline.
  assert (Hfirst : exists rest, strings.Split (gosec.Line issue) "-"
                                = "" :: rest).
  { destruct Hline as [->|[rest ->]]; simpl; eauto. }
  destruct Hfirst as [rest Hsplit]. split.
  - unfold parseSarifLocation. by rewrite Hsplit.
  - intros data Hin.
    apply (convert_fails_on_text cwe_Get Score_String ReadBuildInfo
             rootPaths data issue ""); [done| |].
    + unfold parsed_texts, line_segments. rewrite Hsplit.
      destruct rest; apply elem_of_cons; by left.
    + intros [z Hz]. apply Atoi_Ok_iff in Hz. discriminate Hz.
Qed.

(** X13. In a returned document the tool declares one supported taxonomy,
    and the reference carries the name and the identifier of the one
    taxonomy group of the run. Its index is the constant 1, while the group
    is the only element of the run's taxonomies: the index is not the
    position of the group in that list. *)
Theorem convertToSarifReport_supported_taxonomy (rootPaths : list string)
    (data : reportInfo) (doc : sarif.Report) :
  convert rootPaths data = Ok doc ->
  exists run taxonomy ref,
    sarif.Runs doc = [run] /\
    sarif.Taxonomies run = [taxonomy] /\
    sarif.tc_SupportedTaxonomies (sarif.Driver (sarif.run_Tool run)) = [ref]
    /\ sarif.tcr_Name ref = sarif.tc_Name taxonomy
    /\ sarif.tcr_Guid ref = sarif.tc_Guid taxonomy
    /\ sarif.tcr_Index ref = 1
    /\ sarif.Taxonomies run !! Z.to_nat (sarif.tcr_Index ref) = None
    /\ sarif.Taxonomies run !! 0%nat = Some taxonomy.
Proof.
  intros Hdoc.
  destruct (convert_Ok_run _ _ _ _ _ _ Hdoc)
    as (st & run & tx & _ & Hrun & Htx & _ & _ & _ & Hguid & Hsup).
  assert (Hname : sarif.tc_Name tx = cweAcronym).
  { apply convert_Ok_inv in Hdoc as (st' & driver & _ & _ & _ & ->).
    simpl in Hrun. injection Hrun as <-. simpl in Htx.
    by injection Htx as <-. }
  eexists run, tx, _. do 2 (split; [done|]). split; [exact Hsup|].
  simpl. rewrite Hname, Hguid, Htx. by repeat split.
Qed.

End DocumentProperties.

(** ** What the error depends on *)

(** The roots do not enter the outcome of a parse except through the URI. *)
Lemma parseSarifLocation_roots (issue : gosec.Issue)
    (roots1 roots2 : list string) :
  match parseSarifLocation issue roots1, parseSarifLocation issue roots2 with
  | Ok loc1, Ok loc2 => location_region loc1 = location_region loc2
  | Fail e1, Fail e2 => e1 = e2
  | Panic, Panic => True
  | _, _ => False
  end.
Proof.
  unfold parseSarifLocation.
  destruct (strings.Split (gosec.Line issue) "-" !! 0%nat) as [l0|]; [|done].
  destruct (strconv.Atoi l0) as [s| |]; simpl; [|done..].
  destruct (match strings.Split (gosec.Line issue) "-" !! 1%nat with
            | Some l1 => strconv.Atoi l1 | None => Ok s end) as [e| |];
    simpl; [|done..].
  by destruct (strconv.Atoi (gosec.Col issue)) as [c| |].
Qed.

Lemma convert_issues_error (cwe_Get : string -> cwe.Weakness)
    (Score_String : gosec.Score -> string) (rootPaths : list string)
    (issues : list gosec.Issue) :
  forall st,
    ret_error (convert_issues cwe_Get Score_String rootPaths st issues)
    = first_location_error issues.
Proof.
  induction issues as [|issue rest IH]; intros st; simpl; [done|].
  pose proof (step_outcome cwe_Get Score_String rootPaths st issue) as Hs.
  pose proof (parseSarifLocation_roots issue rootPaths []) as Hr.
  destruct (parseSarifLocation issue rootPaths) as [loc|e|];
    destruct (parseSarifLocation issue []) as [loc'|e'|]; try done.
  - destruct Hs as [st1 ->]. simpl. apply IH.
  - rewrite Hs. simpl. by subst.
  - rewrite Hs. simpl. exfalso.
    destruct (parseSarifLocation_cases issue rootPaths)
      as [(l & Hl & _)|(e & He & _)].
    + pose proof (step_outcome cwe_Get Score_String rootPaths st issue) as H.
      rewrite Hl in H. destruct H as [st' H]. congruence.
    + pose proof (step_outcome cwe_Get Score_String rootPaths st issue) as H.
      rewrite He in H. congruence.
Qed.

(** X10. Whether a conversion returns an error, and which, is decided by the
    line and column texts of the findings alone: the error is that of the
    first finding whose location does not parse. The roots, the catalog,
    the names of the scores and the build information have no part in
    it. *)
Theorem convertToSarifReport_error_source
    (Get1 Get2 : string -> cwe.Weakness)
    (Names1 Names2 : gosec.Score -> string) (info1 info2 : option string)
    (roots1 roots2 : list string) (data : reportInfo) :
  ret_error (convertToSarifReport Get1 Names1 info1 roots1 data)
  = first_location_error (Issues data) /\
  ret_error (convertToSarifReport Get1 Names1 info1 roots1 data)
  = ret_error (convertToSarifReport Get2 Names2 info2 roots2 data).
Proof.
  assert (Hone :
    forall Get Names info roots,
      ret_error (convertToSarifReport Get Names info roots data)
      = first_location_error (Issues data)).
  { intros Get Names info roots.
    pose proof (convert_issues_error Get Names roots (Issues data)
                  registry_init) as He.
    unfold convertToSarifReport.
    destruct (convert_issues Get Names roots registry_init (Issues data))
      as [st|e|]; simpl in *; [|done..].
    rewrite <- He. unfold buildSarifDriver.
    by destruct info as [[|c v]|]. }
  split; [apply Hone|]. by rewrite !Hone.
Qed.

(** ** The form of the identifiers *)

Lemma forallb_range (P : Z -> bool) (n : nat) :
  forallb P (map Z.of_nat (seq 0 n)) = true ->
  forall z, 0 <= z < Z.of_nat n -> P z = true.
Proof.
  intros H z Hz. rewrite forallb_forall in H. apply H.
  apply in_map_iff. exists (Z.to_nat z). split; [lia|].
  apply in_seq. lia.
Qed.

Lemma bytes_of_word_length (n : nat) (w : Z) :
  length (md5.bytes_of_word n w) = n.
Proof. unfold md5.bytes_of_word. by rewrite length_map, length_seq. Qed.

Lemma bytes_of_word_range (n : nat) (w : Z) :
  Forall (fun b => 0 <= b < 256) (md5.bytes_of_word n w).
Proof.
  unfold md5.bytes_of_word. apply Forall_forall. intros b Hb.
  apply list_elem_of_In, in_map_iff in Hb as (k & <- & _).
  apply Z.mod_pos_bound. lia.
Qed.

Lemma md5_Sum_length (msg : list Z) : length (md5.Sum msg) = 16%nat.
Proof.
  unfold md5.Sum. cbv zeta. by rewrite !length_app, !bytes_of_word_length.
Qed.

Lemma md5_Sum_range (msg : list Z) :
  Forall (fun b => 0 <= b < 256) (md5.Sum msg).
Proof.
  unfold md5.Sum. cbv zeta. rewrite !Forall_app.
  repeat split; apply bytes_of_word_range.
Qed.

Lemma set_byte_length (k : nat) (f : Z -> Z) (u : uuid.UUID) :
  length (uuid.set_byte k f u) = length u.
Proof.
  unfold uuid.set_byte. destruct (u !! k); [apply length_insert|done].
Qed.

Lemma set_byte_range (k : nat) (f : Z -> Z) (u : uuid.UUID) :
  (forall b, 0 <= b < 256 -> 0 <= f b < 256) ->
  Forall (fun b => 0 <= b < 256) u ->
  Forall (fun b => 0 <= b < 256) (uuid.set_byte k f u).
Proof.
  intros Hf Hu. unfold uuid.set_byte. destruct (u !! k) as [b|] eqn:Hk;
    [|done].
  apply Forall_insert; [done|]. apply Hf.
  by apply (Forall_lookup_1 _ _ _ _ Hu Hk).
Qed.

Lemma set_byte_lookup (k : nat) (f : Z -> Z) (u : uuid.UUID) (b : Z) :
  u !! k = Some b -> uuid.set_byte k f u !! k = Some (f b).
Proof.
  intros Hk. unfold uuid.set_byte. rewrite Hk.
  apply list_lookup_insert_eq. by apply lookup_lt_Some in Hk.
Qed.

Lemma set_byte_lookup_ne (k j : nat) (f : Z -> Z) (u : uuid.UUID) :
  k <> j -> uuid.set_byte k f u !! j = u !! j.
Proof.
  intros Hne. unfold uuid.set_byte. destruct (u !! k); [|done].
  by apply list_lookup_insert_ne.
Qed.

Lemma version_byte (b : Z) :
  0 <= b < 256 ->
  0 <= Z.lor (Z.land b 15) 48 < 256 /\ Z.lor (Z.land b 15) 48 / 16 = 3.
Proof.
  intros Hb.
  pose proof (forallb_range
    (fun b => let v := Z.lor (Z.land b 15) 48 in
              (0 <=? v) && (v <? 256) && (v / 16 =? 3)) 256 eq_refl b Hb) as H.
  cbv zeta in H. apply andb_true_iff in H as [H H3].
  apply andb_true_iff in H as [H0 H1]. lia.
Qed.

Lemma variant_byte (b : Z) :
  0 <= b < 256 ->
  0 <= Z.lor (Z.land b 63) 128 < 256 /\
  8 <= Z.lor (Z.land b 63) 128 / 16 < 12.
Proof.
  intros Hb.
  pose proof (forallb_range
    (fun b => let v := Z.lor (Z.land b 63) 128 in
              (0 <=? v) && (v <? 256) && (8 <=? v / 16) && (v / 16 <? 12))
    256 eq_refl b Hb) as H.
  cbv zeta in H. apply andb_true_iff in H as [H H3].
  apply andb_true_iff in H as [H H2].
  apply andb_true_iff in H as [H0 H1]. lia.
Qed.

Lemma hex_digit_hex (z : Z) :
  0 <= z < 16 -> is_hex_digit (uuid.hex_digit z) = true.
Proof.
  intros Hz.
  exact (forallb_range (fun z => is_hex_digit (uuid.hex_digit z)) 16
           eq_refl z Hz).
Qed.

Lemma hex_digit_variant (z : Z) :
  8 <= z < 12 ->
  uuid.hex_digit z ∈ ["8"; "9"; "a"; "b"]%char.
Proof.
  intros Hz.
  assert (z = 8 \/ z = 9 \/ z = 10 \/ z = 11) as [->|[->|[->| ->]]] by lia;
    set_solver.
Qed.

Lemma hex_length (bs : list Z) :
  String.length (uuid.hex bs) = (2 * length bs)%nat.
Proof. induction bs as [|b r IH]; simpl; [done|]. rewrite IH. lia. Qed.

Lemma hex_all_hex (bs : list Z) :
  Forall (fun b => 0 <= b < 256) bs -> all_hex (uuid.hex bs) = true.
Proof.
  induction 1 as [|b r Hb _ IH]; simpl; [done|].
  rewrite !hex_digit_hex, IH; [done| |].
  - apply Z.mod_pos_bound. lia.
  - split; [apply Z.div_pos; lia|apply Z.div_lt_upper_bound; lia].
Qed.

(** The bytes of a version-3 UUID. *)
Lemma NewMD5_bytes (space : uuid.UUID) (data : list Z) :
  length (uuid.NewMD5 space data) = 16%nat /\
  Forall (fun b => 0 <= b < 256) (uuid.NewMD5 space data) /\
  (exists b6, uuid.NewMD5 space data !! 6%nat = Some b6 /\ b6 / 16 = 3) /\
  (exists b8, uuid.NewMD5 space data !! 8%nat = Some b8 /\ 8 <= b8 / 16 < 12).
Proof.
  unfold uuid.NewMD5. cbv zeta. set (h := md5.Sum (space ++ data)).
  pose proof (md5_Sum_length (space ++ data)) as Hlen.
  pose proof (md5_Sum_range (space ++ data)) as Hrange. fold h in Hlen, Hrange.
  destruct (lookup_lt_is_Some_2 h 6) as [b6 H6]; [lia|].
  destruct (lookup_lt_is_Some_2 h 8) as [b8 H8]; [lia|].
  pose proof (Forall_lookup_1 _ _ _ _ Hrange H6) as R6.
  pose proof (Forall_lookup_1 _ _ _ _ Hrange H8) as R8.
  split; [by rewrite !set_byte_length|]. split.
  { apply (set_byte_range 8 (fun b => Z.lor (Z.land b 63) 128));
      [intros b Hb; exact (proj1 (variant_byte b Hb))|].
    apply (set_byte_range 6 (fun b => Z.lor (Z.land b 15) 48));
      [intros b Hb; exact (proj1 (version_byte b Hb))|].
    done. }
  split.
  - exists (Z.lor (Z.land b6 15) 48).
    split; [|exact (proj2 (version_byte b6 R6))].
    rewrite set_byte_lookup_ne by lia.
    by apply (set_byte_lookup 6 (fun b => Z.lor (Z.land b 15) 48)).
  - exists (Z.lor (Z.land b8 63) 128).
    split; [|exact (proj2 (variant_byte b8 R8))].
    apply (set_byte_lookup 8 (fun b => Z.lor (Z.land b 63) 128)).
    by rewrite set_byte_lookup_ne by lia.
Qed.

Lemma hex_head (bs : list Z) (b : Z) :
  bs !! 0%nat = Some b ->
  exists tail, uuid.hex bs = String (uuid.hex_digit (b / 16)) tail.
Proof. destruct bs as [|b' r]; [done|]. intros [= ->]. simpl. eauto. Qed.

(** X11. Every identifier that [uuid3] returns is a version-3 UUID in its
    canonical text form: 36 bytes, five groups of 8, 4, 4, 4 and 12
    lower-case hexadecimal digits separated by dashes, the third group
    starting with the version digit 3 and the fourth with the variant digit
    8, 9, a or b. *)
Theorem uuid3_canonical_form (value : string) :
  exists h1 h2 h3 h4 h5 : string,
    uuid3 value = h1 +:+ "-" +:+ h2 +:+ "-" +:+ h3 +:+ "-" +:+ h4 +:+ "-" +:+ h5
    /\ String.length (uuid3 value) = 36%nat
    /\ String.length h1 = 8%nat /\ String.length h2 = 4%nat
    /\ String.length h3 = 4%nat /\ String.length h4 = 4%nat
    /\ String.length h5 = 12%nat
    /\ all_hex h1 = true /\ all_hex h2 = true /\ all_hex h3 = true
    /\ all_hex h4 = true /\ all_hex h5 = true
    /\ (exists tail, h3 = String "3" tail)
    /\ (exists c tail, h4 = String c tail /\ c ∈ ["8"; "9"; "a"; "b"]%char).
Proof.
  unfold uuid3, uuid.String.
  set (u := uuid.NewMD5 uuid.Nil (uuid.bytes value)).
  destruct (NewMD5_bytes uuid.Nil (uuid.bytes value))
    as (Hlen & Hrange & (b6 & H6 & Hv) & (b8 & H8 & Hr)).
  fold u in Hlen, Hrange, H6, H8.
  assert (L1 : String.length (uuid.hex (take 4 u)) = 8%nat)
    by (rewrite hex_length, length_take; lia).
  assert (L2 : String.length (uuid.hex (take 2 (drop 4 u))) = 4%nat)
    by (rewrite hex_length, length_take, length_drop; lia).
  assert (L3 : String.length (uuid.hex (take 2 (drop 6 u))) = 4%nat)
    by (rewrite hex_length, length_take, length_drop; lia).
  assert (L4 : String.length (uuid.hex (take 2 (drop 8 u))) = 4%nat)
    by (rewrite hex_length, length_take, length_drop; lia).
  assert (L5 : String.length (uuid.hex (drop 10 u)) = 12%nat)
    by (rewrite hex_length, length_drop; lia).
  eexists _, _, _, _, _. split; [reflexivity|].
  split; [rewrite !length_append, L1, L2, L3, L4, L5; reflexivity|].
  do 5 (split; [done|]).
  split; [apply hex_all_hex, Forall_take, Hrange|].
  split; [apply hex_all_hex, Forall_take, Forall_drop, Hrange|].
  split; [apply hex_all_hex, Forall_take, Forall_drop, Hrange|].
  split; [apply hex_all_hex, Forall_take, Forall_drop, Hrange|].
  split; [apply hex_all_hex, Forall_drop, Hrange|].
  split.
  - destruct (hex_head (take 2 (drop 6 u)) b6) as [tail ->].
    + rewrite lookup_take_lt by lia. rewrite lookup_drop. exact H6.
    + exists tail. by rewrite Hv.
  - destruct (hex_head (take 2 (drop 8 u)) b8) as [tail ->].
    + rewrite lookup_take_lt by lia. rewrite lookup_drop. exact H8.
    + exists (uuid.hex_digit (b8 / 16)), tail. split; [done|].
      by apply hex_digit_variant.
Qed.

(** ** The command's paths *)

Section CleanPaths.

Variable os_Getenv : string -> string.
Variable runtime_GOROOT : string.
Variable user_Current : option string.
Variable filepath_Join : string -> string -> string.
Variable filepath_Abs : string -> option string.
Variable filepath_FromSlash : string -> string.

Abbreviation gopath :=
  (main.gopath os_Getenv runtime_GOROOT user_Current filepath_Join
     filepath_Abs).
Abbreviation cleanPaths :=
  (main.cleanPaths os_Getenv runtime_GOROOT user_Current filepath_Join
     filepath_Abs filepath_FromSlash).

Lemma cleanPaths_loop_app (projectRoot : string) (paths : list string) :
  forall clean,
    main.cleanPaths_loop filepath_Abs projectRoot paths clean =
    clean ++ main.cleanPaths_loop filepath_Abs projectRoot paths [].
Proof.
  induction paths as [|arg rest IH]; intros clean; simpl.
  - by rewrite app_nil_r.
  - destruct (strings.HasPrefix _ projectRoot);
      rewrite IH, (IH [_]), <- app_assoc; done.
Qed.

(** X12. [cleanPaths] returns one path per argument, in order. An argument
    whose absolute form (the argument itself when it has none) lies under
    the project root, the source directory of the Go path, is replaced by
    the rest of that absolute form, so that the root followed by the result
    is the absolute form again; every other argument is returned as it was
    given, not in its absolute form. *)
Theorem cleanPaths_relative_to_project (paths : list string) :
  Forall2
    (fun arg out =>
       (strings.HasPrefix (default arg (filepath_Abs arg))
          (filepath_FromSlash (gopath +:+ "/src/")) = true /\
        default arg (filepath_Abs arg)
        = filepath_FromSlash (gopath +:+ "/src/") +:+ out) \/
       (strings.HasPrefix (default arg (filepath_Abs arg))
          (filepath_FromSlash (gopath +:+ "/src/")) = false /\
        out = arg))
    paths (cleanPaths paths).
Proof.
  unfold main.cleanPaths. cbv zeta.
  set (root := filepath_FromSlash (gopath +:+ "/src/")).
  induction paths as [|arg rest IH]; simpl; [constructor|].
  rewrite cleanPaths_loop_app.
  change (match filepath_Abs arg with Some abs => abs | None => arg end)
    with (default arg (filepath_Abs arg)).
  destruct (strings.HasPrefix (default arg (filepath_Abs arg)) root) eqn:Hp;
    simpl; (constructor; [|exact IH]).
  - left. split; [done|]. unfold strings.TrimPrefix. rewrite Hp.
    by apply prefix_split.
  - right. by split.
Qed.

End CleanPaths.

(** ** The further properties at the example findings *)

Lemma parseSarifLocation_uri_shape_witness :
  exists loc,
    parseSarifLocation
      (example_issue "G204" "78" "" "/home/u/proj/pkg/file.go" "42" "3" "")
      example_roots = Ok loc /\
    (String.length (location_uri loc)
     <= String.length "/home/u/proj/pkg/file.go")%nat.
Proof.
  eexists. split; [reflexivity|].
  refine (proj2 (parseSarifLocation_uri_shape
                   (example_issue "G204" "78" "" "/home/u/proj/pkg/file.go"
                      "42" "3" "")
                   example_roots _ _)).
  reflexivity.
Defined.

Lemma parseSarifLocation_uri_whole_path_witness :
  exists loc,
    parseSarifLocation
      (example_issue "G204" "78" "" "/home/u/proj/pkg/file.go" "42" "3" "")
      ([] ++ "/home/u/proj/" :: []) = Ok loc /\
    location_uri loc = "/home/u/proj/pkg/file.go".
Proof.
  eexists. split; [reflexivity|].
  refine (parseSarifLocation_uri_whole_path
            (example_issue "G204" "78" "" "/home/u/proj/pkg/file.go"
               "42" "3" "")
            [] [] "/home/u/proj/" _ _ _ _ _);
    [reflexivity | constructor | | reflexivity].
  right. split; [by exists "/home/u/proj"|].
  apply Replace1_unchanged_iff; [discriminate|reflexivity].
Defined.

Lemma parseSarifLocation_first_two_pieces_witness :
  parseSarifLocation (example_issue "G204" "78" "" "/p/f.go" "1-2-x" "3" "")
    example_roots
  = parseSarifLocation (example_issue "G204" "78" "" "/p/f.go" "1-2" "3" "")
      example_roots.
Proof.
  apply parseSarifLocation_first_two_pieces; reflexivity.
Defined.

Lemma convertToSarifReport_results_witness :
  exists doc run,
    convertToSarifReport example_Get example_Score_String None example_roots
      example_data = Ok doc /\
    sarif.Runs doc = [run] /\
    length (sarif.Results run) = 4%nat.
Proof.
  destruct (convertToSarifReport example_Get example_Score_String None
              example_roots example_data) as [doc| |] eqn:H;
    [|vm_compute in H; discriminate H..].
  destruct (convertToSarifReport_results example_Get example_Score_String
              None example_roots example_data doc H)
    as (run & Hrun & Hlen & _).
  by exists doc, run.
Defined.

Lemma convertToSarifReport_region_range_witness :
  exists doc,
    convertToSarifReport example_Get example_Score_String None example_roots
      example_data = Ok doc /\
    Forall (fun run =>
      Forall (fun res =>
        Forall (fun loc => 0 <= sarif.StartLine (location_region loc))
          (sarif.Locations res))
        (sarif.Results run))
      (sarif.Runs doc).
Proof.
  destruct (convertToSarifReport example_Get example_Score_String None
              example_roots example_data) as [doc| |] eqn:H;
    [|vm_compute in H; discriminate H..].
  exists doc. split; [done|].
  apply Forall_forall. intros run Hrun.
  apply Forall_forall. intros res Hres.
  apply Forall_forall. intros loc Hloc.
  exact (proj1 (proj1 (convertToSarifReport_region_range example_Get
                         example_Score_String None example_roots
                         example_data doc H run res loc Hrun Hres Hloc))).
Defined.

Lemma convertToSarifReport_counts_witness :
  exists doc run taxonomy,
    convertToSarifReport example_Get example_Score_String None example_roots
      example_data = Ok doc /\
    sarif.Runs doc = [run] /\
    sarif.Taxonomies run = [taxonomy] /\
    (length (run_rules run) <= 4)%nat /\
    (length (sarif.tc_Taxa taxonomy) <= 4)%nat.
Proof.
  destruct (convertToSarifReport example_Get example_Score_String None
              example_roots example_data) as [doc| |] eqn:H;
    [|vm_compute in H; discriminate H..].
  destruct (convertToSarifReport_counts example_Get example_Score_String
              None example_roots example_data doc H)
    as (run & tx & Hrun & Htx & _ & Hr & Ht & _).
  by exists doc, run, tx.
Defined.

Lemma convertToSarifReport_initial_part_witness :
  exists doc doc',
    convertToSarifReport example_Get example_Score_String None example_roots
      example_data = Ok doc /\
    convertToSarifReport example_Get example_Score_String None example_roots
      {| Issues := take 2 example_issues |} = Ok doc'.
Proof.
  destruct (convertToSarifReport example_Get example_Score_String None
              example_roots example_data) as [doc| |] eqn:H;
    [|vm_compute in H; discriminate H..].
  destruct (convertToSarifReport_initial_part example_Get
              example_Score_String None example_roots
              (take 2 example_issues) (drop 2 example_issues) doc H)
    as (doc' & _ & _ & _ & _ & Hdoc' & _).
  by exists doc, doc'.
Defined.

Lemma parseSarifLocation_empty_first_piece_witness :
  parseSarifLocation (example_issue "G204" "78" "" "/p/f.go" "-5" "3" "") []
  = Fail {| Func := "Atoi"; Num := ""; Err := ErrSyntax |}.
Proof.
  refine (proj1 (parseSarifLocation_empty_first_piece example_Get
                   example_Score_String None
                   (example_issue "G204" "78" "" "/p/f.go" "-5" "3" "") [] _)).
  right. by exists "5".
Defined.

Lemma convertToSarifReport_supported_taxonomy_witness :
  exists doc run taxonomy,
    convertToSarifReport example_Get example_Score_String None example_roots
      example_data = Ok doc /\
    sarif.Runs doc = [run] /\
    sarif.Taxonomies run = [taxonomy] /\
    sarif.Taxonomies run !! 1%nat = None.
Proof.
  destruct (convertToSarifReport example_Get example_Score_String None
              example_roots example_data) as [doc| |] eqn:H;
    [|vm_compute in H; discriminate H..].
  destruct (convertToSarifReport_supported_taxonomy example_Get
              example_Score_String None example_roots example_data doc H)
    as (run & tx & ref & Hrun & Htx & _ & _ & _ & Hidx & Hnone & _).
  exists doc, run, tx. do 3 (split; [done|]). by rewrite Hidx in Hnone.
Defined.
